(** * NYC Property Violation Monitor: a shallow embedding of
    [violation_monitor.py] and the properties of its tracking engine.

    The development follows the layout of the Python module: the runtime
    (exceptions, the SQLite store, the observable world, the effect monad),
    then the methods of [ViolationTracker], [NYCDataFetcher],
    [EmailNotifier] and [ViolationMonitor], under the names they have in
    the source. *)

From Stdlib Require Import ZArith String Ascii.
From stdpp Require Import base option list strings gmap.

(** ** Python values used by the program *)

(** A raw record is one JSON object of a Socrata response, a [Dict] whose
    values the tracker binds to [str] parameters ([violation_id: str],
    [violation_date: str]).  [r !! k] is [r.get(k)]: [None] when the key is
    absent. *)
Abbreviation raw_record := (gmap string string).

(** Values of the request parameters ([Dict[str, Any]]): the program only
    ever stores strings and one integer there. *)
Inductive pyval :=
  | PStr (s : string)
  | PInt (z : Z).

Abbreviation params := (gmap string pyval).

(** Truth value of an [Optional[str]], as tested by [if complaint_id and ...]
    and [if self.api_token:]: [None] and the empty string are false. *)
Definition truthy (v : option string) : bool :=
  match v with
  | Some s => negb (String.eqb s "")
  | None => false
  end.

(** [d.get(k, '')] *)
Definition get_default (r : raw_record) (k : string) : string :=
  default "" (r !! k).

(** ** Exceptions *)

Inductive exn :=
  | RequestException      (* requests.RequestException and its subclasses *)
  | OperationalError      (* sqlite3.OperationalError: no such table      *)
  | SMTPException         (* smtplib.SMTPException, socket errors          *)
  | ValueError            (* any other [Exception]                         *)
  | KeyboardInterrupt.    (* a [BaseException] that is not an [Exception]  *)

Definition isinstance_RequestException (e : exn) : bool :=
  match e with RequestException => true | _ => false end.

Definition isinstance_Exception (e : exn) : bool :=
  match e with KeyboardInterrupt => false | _ => true end.

Inductive result (A : Type) :=
  | Ok (a : A)
  | Raise (e : exn).
Arguments Ok {A} a.
Arguments Raise {A} e.

(** ** The Record Store: table [violations] of [violations.db] *)

(** One row of
    [CREATE TABLE violations (id INTEGER PRIMARY KEY AUTOINCREMENT,
     source, violation_id, block, lot, violation_date, created_date
     -- all TEXT NOT NULL --, UNIQUE(source, violation_id))]. *)
Record row := {
  row_id : Z;
  row_source : string;
  row_violation_id : string;
  row_block : string;
  row_lot : string;
  row_violation_date : string;
  row_created_date : string
}.

(** The table with its AUTOINCREMENT counter (the entry of
    [sqlite_sequence]): the largest rowid ever allocated. *)
Record table := {
  rows : list row;
  seq : Z
}.

(** The database file: [None] while the table has not been created. *)
Definition database := option table.

Definition empty_table : table := {| rows := []; seq := 0 |}.

Definition row_key (r : row) : string * string :=
  (row_source r, row_violation_id r).

Definition key_matches (src vid : string) (r : row) : bool :=
  String.eqb (row_source r) src && String.eqb (row_violation_id r) vid.

Module Sql.

(** [CREATE TABLE IF NOT EXISTS violations (...)] *)
Definition create_table_if_not_exists (d : database) : database :=
  match d with
  | None => Some empty_table
  | Some t => Some t
  end.

(** [SELECT 1 FROM violations WHERE source = ? AND violation_id = ?]:
    the matching rows, each projected to the constant [1]. *)
Definition select_1 (src vid : string) (t : table) : list Z :=
  map (λ _, 1%Z) (List.filter (key_matches src vid) (rows t)).

Definition max_rowid (rs : list row) : Z :=
  foldr (λ r m, Z.max (row_id r) m) 0%Z rs.

(** The rowid an AUTOINCREMENT table hands out next. *)
Definition next_rowid (t : table) : Z :=
  (Z.max (max_rowid (rows t)) (seq t) + 1)%Z.

(** [INSERT OR IGNORE INTO violations (source, violation_id, block, lot,
    violation_date, created_date) VALUES (?, ?, ?, ?, ?, ?)], a bound
    [None] being SQL NULL.  A rowid is allocated first (and is not reused
    when the row is not stored).  The conflict clause IGNORE then skips
    the row, raising nothing, when it breaks a NOT NULL constraint or the
    constraint UNIQUE(source, violation_id). *)
Definition insert_or_ignore
    (src vid blk lt vdate cdate : option string) (t : table) : table :=
  let rowid := next_rowid t in
  match src, vid, blk, lt, vdate, cdate with
  | Some src, Some vid, Some blk, Some lt, Some vdate, Some cdate =>
      if existsb (key_matches src vid) (rows t)
      then {| rows := rows t; seq := rowid |}
      else {| rows := rows t ++
                [ {| row_id := rowid; row_source := src;
                     row_violation_id := vid; row_block := blk;
                     row_lot := lt; row_violation_date := vdate;
                     row_created_date := cdate |} ];
              seq := rowid |}
  | _, _, _, _, _, _ => {| rows := rows t; seq := rowid |}
  end.
#[global] Arguments insert_or_ignore : simpl never.

End Sql.

(** ** The observable world and the effect monad *)

(** The MIME message handed to [sendmail]; the HTML body is kept as the
    structure [_create_email_body] lays out (one section per source). *)
Inductive section_body :=
  | BodyTable (headers : list string) (cells : list (list string))
  | BodyNoViolations.

Record email_body := {
  body_block : string;
  body_lot : string;
  body_date : string;
  body_sections : list (string * section_body)
}.

Record message := {
  msg_From : string;
  msg_To : string;
  msg_Subject : string;
  msg_body : email_body
}.

Inductive smtp_call :=
  | SMTP_connect (server : string) (port : Z)
  | SMTP_starttls
  | SMTP_login (user password : string)
  | SMTP_sendmail (from_addr to_addr : string) (msg : message)
  | SMTP_quit.

Inductive log_record :=
  | Info_checking (blk lt : string)
  | Error_fetching (endpoint : string) (e : exn)
  | Info_found (total_new : nat)
  | Info_no_new_violations
  | Info_report_sent (recipients : nat)
  | Error_send_email (e : exn).

Inductive event :=
  | EvLog (l : log_record)
  | EvGet (url : string) (p : params) (timeout : Z)
  | EvSmtp (c : smtp_call).

(** What a run can change or leave behind: the database file, the number
    of clock readings taken so far, and the calls made to the outside. *)
Record world := {
  db : database;
  ticks : nat;
  trace : list event
}.

Definition set_db (d : database) (w : world) : world :=
  {| db := d; ticks := ticks w; trace := trace w |}.

Definition emit (e : event) (w : world) : world :=
  {| db := db w; ticks := ticks w; trace := trace w ++ [e] |}.

(** State and exceptions: a raised exception keeps the world reached. *)
Definition M (A : Type) : Type := world → result A * world.

#[global] Instance M_ret : MRet M := λ A a w, (Ok a, w).

#[global] Instance M_bind : MBind M := λ A B f m w,
  match m w with
  | (Ok a, w') => f a w'
  | (Raise e, w') => (Raise e, w')
  end.

Definition raise {A} (e : exn) : M A := λ w, (Raise e, w).

Definition lift_result {A} (r : result A) : M A := λ w, (r, w).

(** [try: body except <class> as e: handler(e)] *)
Definition try_except {A} (body : M A) (catches : exn → bool)
    (handler : exn → M A) : M A := λ w,
  match body w with
  | (Ok a, w') => (Ok a, w')
  | (Raise e, w') => if catches e then handler e w' else (Raise e, w')
  end.

Definition log (l : log_record) : M unit := λ w, (Ok tt, emit (EvLog l) w).

(** [for x in xs: body(x)] *)
Fixpoint for_each {A} (xs : list A) (body : A → M unit) : M unit :=
  match xs with
  | [] => mret tt
  | x :: xs' => body x ;; for_each xs' body
  end.

(** ** sqlite3 connections *)

(** [sqlite3.connect] reads the file; statements act on the connection's
    own copy, which [commit] writes back; [close] drops what was not
    committed. *)
Record connection := { working : database }.

Definition sqlite3_connect : M connection :=
  λ w, (Ok {| working := db w |}, w).

Definition commit (c : connection) : M unit :=
  λ w, (Ok tt, set_db (working c) w).

Definition close (c : connection) : M unit := mret tt.

Definition execute_create (c : connection) : result connection :=
  Ok {| working := Sql.create_table_if_not_exists (working c) |}.

Definition execute_select (src vid : string) (c : connection)
    : result (list Z) :=
  match working c with
  | Some t => Ok (Sql.select_1 src vid t)
  | None => Raise OperationalError
  end.

Definition execute_insert (src vid blk lt vdate cdate : option string)
    (c : connection) : result connection :=
  match working c with
  | Some t =>
      Ok {| working := Some (Sql.insert_or_ignore src vid blk lt vdate cdate t) |}
  | None => Raise OperationalError
  end.

(** [cursor.fetchone()] *)
Definition fetchone {A} (l : list A) : option A := head l.

(** ** The program *)

(** What [requests.get(...)], [raise_for_status()] and [json()] come to. *)
Inductive http_outcome :=
  | Response (json : list raw_record)
  | Failure (e : exn).

(** [EmailNotifier.__init__]: the [email] section of the configuration. *)
Record EmailNotifier := {
  smtp_server : string;
  smtp_port : Z;
  from_email : string;
  from_password : string;
  to_emails : list string
}.

(** [ViolationMonitor.__init__]: the token of the data fetcher, the
    notifier and the monitored property. *)
Record ViolationMonitor := {
  api_token : option string;
  notifier : EmailNotifier;
  block : string;
  lot : string
}.

(** The four data feeds, by their keys in [new_violations]. *)
Inductive source := Src311 | SrcHPD | SrcOATH | SrcDOB.

#[global] Instance source_eq_dec : EqDecision source.
Proof. solve_decision. Defined.

Definition all_sources : list source := [Src311; SrcHPD; SrcOATH; SrcDOB].

(** [new_violations]: a dict in insertion order. *)
Abbreviation violations := (list (string * list raw_record)).

(** ** Descriptors and notions the properties are stated with *)

Definition base_url : string := "https://data.cityofnewyork.us/resource".

(** ** Per-source descriptors

    The literals of the four adapters and of the four loops of
    [check_violations], tabulated by source; the lemma
    [collect_by_stages_eq] checks the tables against the code. *)

Definition tag (s : source) : string :=
  match s with
  | Src311 => "311_complaints" | SrcHPD => "hpd_violations"
  | SrcOATH => "oath_violations" | SrcDOB => "dob_violations"
  end.

Definition id_field (s : source) : string :=
  match s with
  | Src311 => "unique_key" | SrcHPD => "violationid"
  | SrcOATH => "summons_number" | SrcDOB => "isn_dob_bis_viol"
  end.

Definition date_field (s : source) : string :=
  match s with
  | Src311 => "created_date" | SrcHPD => "inspectiondate"
  | SrcOATH => "hearing_date" | SrcDOB => "issue_date"
  end.

Definition endpoint (s : source) : string :=
  match s with
  | Src311 => "erm2-nwe9" | SrcHPD => "wvxf-dwi5"
  | SrcOATH => "6bgk-3dad" | SrcDOB => "3h2n-5cm9"
  end.

Definition url_of (s : source) : string :=
  base_url +:+ "/" +:+ endpoint s +:+ ".json".

(** How each adapter says which property it asks about. *)
Definition subject_filter (s : source) (blk lt : string) : string :=
  match s with
  | Src311 => "incident_address LIKE '%" +:+ blk +:+ " %" +:+ lt +:+ "%'"
  | _ => "block = '" +:+ blk +:+ "' AND lot = '" +:+ lt +:+ "'"
  end.

(** The pair [(src, vid)] has a row in the table. *)
Definition tracked (t : table) (src vid : string) : bool :=
  existsb (key_matches src vid) (rows t).

Definition unique_keys (t : table) : Prop :=
  NoDup (map row_key (rows t)).

(** Number of rows stored for a pair. *)
Definition count_key (t : table) (src vid : string) : nat :=
  length (List.filter (key_matches src vid) (rows t)).

(** A record whose identifier is present, not empty and has no row for
    this source in the table. *)
Definition unseen (s : source) (t : table) (r : raw_record) : bool :=
  truthy (r !! id_field s)
  && negb (tracked t (tag s) (default "" (r !! id_field s))).

(** The input restricted to the records unseen in a given store. *)
Definition unseen_records (s : source) (t : table)
    (records : list raw_record) : list raw_record :=
  List.filter (unseen s t) records.

(** Of the records carrying an identifier, the first one for each
    identifier not in [seen]. *)
Fixpoint first_by_id (field : string) (seen : list string)
    (records : list raw_record) : list raw_record :=
  match records with
  | [] => []
  | r :: rest =>
      match r !! field with
      | Some v =>
          if bool_decide (v ∈ seen) then first_by_id field seen rest
          else r :: first_by_id field (v :: seen) rest
      | None => first_by_id field seen rest
      end
  end.

(** A record that has an identifier also has the source's date. *)
Definition dated (s : source) (r : raw_record) : Prop :=
  truthy (r !! id_field s) = true → is_Some (r !! date_field s).

(** The operations of the store: [_init_database], [is_new_violation]
    and [track_violation] with their arguments. *)
Inductive store_op :=
  | OpInit
  | OpExists (src vid : string)
  | OpInsert (src vid blk lt : string) (vdate : option string).

(** An empty store: no table yet, or a table without rows. *)
Definition empty_store (d : database) : Prop :=
  match d with
  | None => True
  | Some t => rows t = []
  end.

(** One row per pair, in a database that has the table. *)
Definition store_ok (d : database) : Prop :=
  match d with
  | None => True
  | Some t => unique_keys t
  end.

(** The parameters [_make_request] sends: those it was given, with the
    application token when there is one. *)
Definition with_token (token : option string) (p : params) : params :=
  match token with
  | Some tok => if truthy token then <["$$app_token" := PStr tok]> p else p
  | None => p
  end.

(** The parameters each adapter builds, before the token is added. *)
Definition request_params (s : source) (blk lt since_date : string) : params :=
  {[ "$where" := PStr (subject_filter s blk lt +:+ " AND " +:+ date_field s
                       +:+ " > '" +:+ since_date +:+ "'");
     "$order" := PStr (date_field s +:+ " DESC");
     "$limit" := PInt 1000 ]}.

(** Calls to the outside, as opposed to log entries. *)
Definition is_call (e : event) : bool :=
  match e with EvLog _ => false | _ => true end.

Definition calls (tr : list event) : list event := List.filter is_call tr.

(** Two worlds that differ at most in what was logged. *)
Definition same_but_log (w w' : world) : Prop :=
  db w = db w' ∧ ticks w = ticks w' ∧ calls (trace w) = calls (trace w').

(** Two computations that, from worlds differing in the log only, give the
    same result and worlds differing in the log only. *)
Definition sim {A} (m m' : M A) : Prop :=
  ∀ w w', same_but_log w w' →
    (m w).1 = (m' w').1 ∧ same_but_log (m w).2 (m' w').2.

(** Number of GET requests sent to a URL. *)
Definition get_count (url : string) (tr : list event) : nat :=
  length (List.filter (λ e, match e with
                            | EvGet u _ _ => String.eqb u url
                            | _ => false
                            end) tr).

(** A computation that sends at most [n] GET requests to [url]. *)
Definition at_most_gets {A} (url : string) (n : nat) (m : M A) : Prop :=
  ∀ w, get_count url (trace (m w).2) ≤ get_count url (trace w) + n.

(** The API that answers a source with the empty list, and otherwise as
    [net] does. *)
Definition answering_empty (net : string → params → http_outcome)
    (s : source) : string → params → http_outcome :=
  λ url p, if String.eqb url (url_of s) then Response [] else net url p.

(** ** Notions for the properties of the rest of the code *)

(** A computation that, on a database that has the table, leaves the
    table in place and only appends rows to it, keeping one row per pair
    when it was so: nothing is removed, changed or moved. *)
Definition append_only {A} (m : M A) : Prop :=
  ∀ w t, db w = Some t →
    ∃ t', db (m w).2 = Some t'
          ∧ rows t `prefix_of` rows t'
          ∧ (unique_keys t → unique_keys t').

(** The row describes the record: the source's tag, the monitored
    property, the record's identifier and the record's date. *)
Definition row_describes (s : source) (blk lt : string) (r : raw_record)
    (x : row) : Prop :=
  row_source x = tag s ∧ row_block x = blk ∧ row_lot x = lt
  ∧ r !! id_field s = Some (row_violation_id x)
  ∧ r !! date_field s = Some (row_violation_date x).

(** The identifiers of the records that have one. *)
Definition ids_of (s : source) (records : list raw_record) : list string :=
  omap (λ r : raw_record, r !! id_field s) records.

(** A computation that leaves an observation [f] of the world as it
    found it, however it ends. *)
Definition keeps {A X} (f : world → X) (m : M A) : Prop :=
  ∀ w, f (m w).2 = f w.

(** The SMTP calls of a trace. *)
Definition smtp_calls (tr : list event) : list smtp_call :=
  omap (λ e, match e with EvSmtp c => Some c | _ => None end) tr.

(** A computation that raises from every world. *)
Definition always_raises {A} (m : M A) : Prop :=
  ∀ w, ∃ e, (m w).1 = Raise e.

(** Every record that has an identifier has a row for this source. *)
Definition identified_tracked (s : source) (t : table)
    (records : list raw_record) : Prop :=
  Forall (λ r : raw_record,
            truthy (r !! id_field s) = true →
            tracked t (tag s) (default "" (r !! id_field s)) = true) records.

(** The novel-record dict of a cycle that found nothing. *)
Definition nothing_new : violations :=
  map (λ s, (tag s, [])) all_sources.

(** Of a planned sequence of SMTP calls, those that are made: up to and
    including the first one the server fails, with the exception it
    raised. *)
Fixpoint until_failure (smtp : smtp_call → option exn)
    (plan : list smtp_call) : list smtp_call * option exn :=
  match plan with
  | [] => ([], None)
  | c :: rest =>
      match smtp c with
      | Some e => ([c], Some e)
      | None => let '(made, failure) := until_failure smtp rest in
                (c :: made, failure)
      end
  end.

(** The SMTP session of a report: connect, STARTTLS, login, one
    [sendmail] per recipient, quit. *)
Definition planned_calls (self : EmailNotifier) (msg : message)
    : list smtp_call :=
  [ SMTP_connect (smtp_server self) (smtp_port self); SMTP_starttls;
    SMTP_login (from_email self) (from_password self) ]
  ++ map (λ to_email, SMTP_sendmail (from_email self) to_email msg)
       (to_emails self)
  ++ [ SMTP_quit ].

(** The world after some SMTP calls were made. *)
Definition emit_smtp (made : list smtp_call) (w : world) : world :=
  {| db := db w; ticks := ticks w; trace := trace w ++ map EvSmtp made |}.


(** ** A scenario for the examples

    A clock that counts its readings, a monitored property, a few 311
    records, an API whose 311 endpoint is down and an SMTP server that
    refuses connections. *)

Definition demo_clock (n : nat) : nat := n.

Definition demo_isoformat (n : nat) : string :=
  match n with
  | 0 => "2024-05-02T09:00:00"
  | _ => "2024-05-02T09:00:01"
  end.

Definition demo_strftime_Ymd (n : nat) : string := "2024-05-02".

Definition demo_minus_one_day (n : nat) : nat := n.

Definition fresh_world : world :=
  {| db := Some empty_table; ticks := 0; trace := [] |}.

Definition no_database : world :=
  {| db := None; ticks := 0; trace := [] |}.

Definition complaint_A1 : raw_record :=
  {[ "unique_key" := "A1"; "created_date" := "2024-05-01T10:00:00";
     "complaint_type" := "Noise" ]}.

Definition complaint_A1_again : raw_record :=
  {[ "unique_key" := "A1"; "created_date" := "2024-05-01T11:30:00" ]}.

Definition complaint_no_key : raw_record :=
  {[ "created_date" := "2024-05-01T12:00:00"; "complaint_type" := "Heat" ]}.

Definition complaint_empty_key : raw_record :=
  {[ "unique_key" := ""; "created_date" := "2024-05-01T12:00:00" ]}.

Definition complaint_no_date : raw_record := {[ "unique_key" := "A1" ]}.

Definition hpd_B1 : raw_record :=
  {[ "violationid" := "B1"; "inspectiondate" := "2024-05-01" ]}.

Definition demo_notifier : EmailNotifier :=
  {| smtp_server := "smtp.example.org"; smtp_port := 587;
     from_email := "monitor@example.org"; from_password := "secret";
     to_emails := ["owner@example.org"] |}.

Definition demo_monitor : ViolationMonitor :=
  {| api_token := None; notifier := demo_notifier;
     block := "1234"; lot := "56" |}.

Definition api_311_down (url : string) (p : params) : http_outcome :=
  if String.eqb url (url_of Src311) then Failure RequestException
  else if String.eqb url (url_of SrcHPD) then Response [hpd_B1]
  else Response [].

Definition api_quiet (url : string) (p : params) : http_outcome :=
  Response [].

Definition smtp_refusing (c : smtp_call) : option exn :=
  match c with
  | SMTP_connect _ _ => Some SMTPException
  | _ => None
  end.

Definition api_hpd_garbled (url : string) (p : params) : http_outcome :=
  if String.eqb url (url_of SrcHPD) then Failure ValueError
  else Response [].

Definition steady_answer (s : source) : list raw_record :=
  match s with
  | Src311 => [complaint_A1; complaint_A1_again]
  | SrcHPD => [hpd_B1]
  | _ => []
  end.

Definition api_steady (url : string) (p : params) : http_outcome :=
  if String.eqb url (url_of Src311) then Response (steady_answer Src311)
  else if String.eqb url (url_of SrcHPD) then Response (steady_answer SrcHPD)
  else if String.eqb url (url_of SrcOATH) then Response (steady_answer SrcOATH)
  else Response (steady_answer SrcDOB).

Definition smtp_accepting (c : smtp_call) : option exn := None.

Definition silent_notifier : EmailNotifier :=
  {| smtp_server := "smtp.example.org"; smtp_port := 587;
     from_email := "monitor@example.org"; from_password := "secret";
     to_emails := [] |}.

Definition one_new : violations :=
  [ ("311_complaints", [complaint_A1]); ("hpd_violations", []) ].

Section Monitor.

(** The collaborators: Python's [datetime], the system clock ([clock n]
    is the reading [datetime.now()] returns when [n] readings were taken
    before), the Socrata API and the SMTP server. *)
Context {datetime : Type}.
Context (isoformat strftime_Ymd : datetime → string).
Context (minus_one_day : datetime → datetime).
Context (clock : nat → datetime).
Context (requests_get : string → params → http_outcome).
Context (smtp : smtp_call → option exn).

Definition datetime_now : M datetime := λ w,
  (Ok (clock (ticks w)),
   {| db := db w; ticks := S (ticks w); trace := trace w |}).

(** *** class ViolationTracker *)

Definition _init_database : M unit :=
  conn ← sqlite3_connect;
  conn ← lift_result (execute_create conn);
  commit conn;;
  close conn.

Definition is_new_violation (source violation_id : string) : M bool :=
  conn ← sqlite3_connect;
  cursor ← lift_result (execute_select source violation_id conn);
  let result := match fetchone cursor with None => true | Some _ => false end in
  close conn;;
  mret result.

Definition track_violation (source violation_id blk lt : string)
    (violation_date : option string) : M unit :=
  conn ← sqlite3_connect;
  now ← datetime_now;
  conn ← lift_result
    (execute_insert (Some source) (Some violation_id) (Some blk) (Some lt)
       violation_date (Some (isoformat now)) conn);
  commit conn;;
  close conn.

(** *** class NYCDataFetcher *)

Definition http_get (url : string) (p : params) (timeout : Z)
    : M (list raw_record) := λ w,
  (match requests_get url p with
   | Response json => Ok json
   | Failure e => Raise e
   end, emit (EvGet url p timeout) w).

Definition _make_request (token : option string) (endpoint : string)
    (p : params) : M (list raw_record) :=
  let url := base_url +:+ "/" +:+ endpoint +:+ ".json" in
  let p := match token with
           | Some tok => if truthy token then <["$$app_token" := PStr tok]> p else p
           | None => p
           end in
  try_except (http_get url p 30) isinstance_RequestException
    (λ e, log (Error_fetching endpoint e);; mret []).

Definition get_311_complaints (token : option string)
    (blk lt since_date : string) : M (list raw_record) :=
  let p : params :=
    {[ "$where" := PStr ("incident_address LIKE '%" +:+ blk +:+ " %" +:+ lt
                         +:+ "%' AND created_date > '" +:+ since_date +:+ "'");
       "$order" := PStr "created_date DESC";
       "$limit" := PInt 1000 ]} in
  _make_request token "erm2-nwe9" p.

Definition get_hpd_violations (token : option string)
    (blk lt since_date : string) : M (list raw_record) :=
  let p : params :=
    {[ "$where" := PStr ("block = '" +:+ blk +:+ "' AND lot = '" +:+ lt
                         +:+ "' AND inspectiondate > '" +:+ since_date +:+ "'");
       "$order" := PStr "inspectiondate DESC";
       "$limit" := PInt 1000 ]} in
  _make_request token "wvxf-dwi5" p.

Definition get_oath_violations (token : option string)
    (blk lt since_date : string) : M (list raw_record) :=
  let p : params :=
    {[ "$where" := PStr ("block = '" +:+ blk +:+ "' AND lot = '" +:+ lt
                         +:+ "' AND hearing_date > '" +:+ since_date +:+ "'");
       "$order" := PStr "hearing_date DESC";
       "$limit" := PInt 1000 ]} in
  _make_request token "6bgk-3dad" p.

Definition get_dob_violations (token : option string)
    (blk lt since_date : string) : M (list raw_record) :=
  let p : params :=
    {[ "$where" := PStr ("block = '" +:+ blk +:+ "' AND lot = '" +:+ lt
                         +:+ "' AND issue_date > '" +:+ since_date +:+ "'");
       "$order" := PStr "issue_date DESC";
       "$limit" := PInt 1000 ]} in
  _make_request token "3h2n-5cm9" p.

(** *** class EmailNotifier *)

(** The table of one non-empty section: headers and one line of cells
    per record, by source; a source without a branch gets neither. *)
Definition section_table (source : string) (viol_list : list raw_record)
    : section_body :=
  let cells fields := map (λ viol, map (get_default viol) fields) viol_list in
  if String.eqb source "311_complaints" then
    BodyTable ["Date"; "Type"; "Description"; "Address"]
      (cells ["created_date"; "complaint_type"; "descriptor"; "incident_address"])
  else if String.eqb source "hpd_violations" then
    BodyTable ["Date"; "Type"; "Description"; "Class"]
      (cells ["inspectiondate"; "violationtype"; "violationdescription"; "class"])
  else if String.eqb source "oath_violations" then
    BodyTable ["Hearing Date"; "Violation"; "Status"]
      (cells ["hearing_date"; "violation_type"; "status"])
  else if String.eqb source "dob_violations" then
    BodyTable ["Issue Date"; "Type"; "Description"; "Severity"]
      (cells ["issue_date"; "violation_type_code"; "description"; "severity"])
  else BodyTable [] [].

Definition _create_email_body (vs : violations) (blk lt : string)
    : M email_body :=
  now ← datetime_now;
  mret {| body_block := blk; body_lot := lt;
          body_date := strftime_Ymd now;
          body_sections :=
            map (λ '(source, viol_list),
                   (source,
                    match viol_list with
                    | [] => BodyNoViolations
                    | _ :: _ => section_table source viol_list
                    end)) vs |}.

Definition smtp_do (c : smtp_call) : M unit := λ w,
  (match smtp c with None => Ok tt | Some e => Raise e end,
   emit (EvSmtp c) w).

(** [any(violations.values())]: some list is not empty. *)
Definition any_values (vs : violations) : bool :=
  existsb (λ '(_, viol_list),
             match viol_list with [] => false | _ :: _ => true end) vs.

Definition send_violation_report (self : EmailNotifier) (vs : violations)
    (blk lt : string) : M unit :=
  if negb (any_values vs) then
    log Info_no_new_violations
  else
    body ← _create_email_body vs blk lt;
    let msg :=
      {| msg_From := from_email self;
         msg_To := String.concat ", " (to_emails self);
         msg_Subject := "NYC Property Violations - Block " +:+ blk
                        +:+ ", Lot " +:+ lt;
         msg_body := body |} in
    try_except
      (smtp_do (SMTP_connect (smtp_server self) (smtp_port self));;
       smtp_do SMTP_starttls;;
       smtp_do (SMTP_login (from_email self) (from_password self));;
       for_each (to_emails self)
         (λ to_email, smtp_do (SMTP_sendmail (from_email self) to_email msg));;
       smtp_do SMTP_quit;;
       log (Info_report_sent (length (to_emails self))))
      isinstance_Exception
      (λ e, log (Error_send_email e)).

(** *** class ViolationMonitor *)

(** The loop [check_violations] runs over one source's records, with the
    literals that differ between its four copies as parameters: the
    source tag, the identifier field and the date field.  [acc] is the
    list [new_violations[source]] built so far. *)
Fixpoint track_new (source id_field date_field blk lt : string)
    (records : list raw_record) (acc : list raw_record)
    : M (list raw_record) :=
  match records with
  | [] => mret acc
  | violation :: rest =>
      let violation_id := violation !! id_field in
      match violation_id with
      | Some vid =>
          if truthy violation_id then
            is_new ← is_new_violation source vid;
            if is_new : bool then
              let acc := acc ++ [violation] in
              track_violation source vid blk lt (violation !! date_field);;
              track_new source id_field date_field blk lt rest acc
            else track_new source id_field date_field blk lt rest acc
          else track_new source id_field date_field blk lt rest acc
      | None => track_new source id_field date_field blk lt rest acc
      end
  end.

(** [check_violations] up to the last loop: the dict [new_violations]. *)
Definition collect_new_violations (self : ViolationMonitor) : M violations :=
  log (Info_checking (block self) (lot self));;
  now ← datetime_now;
  let yesterday := strftime_Ymd (minus_one_day now) in
  complaints ← get_311_complaints (api_token self) (block self) (lot self) yesterday;
  new_311 ← track_new "311_complaints" "unique_key" "created_date"
              (block self) (lot self) complaints [];
  hpd_violations ← get_hpd_violations (api_token self) (block self) (lot self) yesterday;
  new_hpd ← track_new "hpd_violations" "violationid" "inspectiondate"
              (block self) (lot self) hpd_violations [];
  oath_violations ← get_oath_violations (api_token self) (block self) (lot self) yesterday;
  new_oath ← track_new "oath_violations" "summons_number" "hearing_date"
              (block self) (lot self) oath_violations [];
  dob_violations ← get_dob_violations (api_token self) (block self) (lot self) yesterday;
  new_dob ← track_new "dob_violations" "isn_dob_bis_viol" "issue_date"
              (block self) (lot self) dob_violations [];
  mret [ ("311_complaints", new_311); ("hpd_violations", new_hpd);
         ("oath_violations", new_oath); ("dob_violations", new_dob) ].

Definition check_violations (self : ViolationMonitor) : M unit :=
  new_violations ← collect_new_violations self;
  let total_new := sum_list (map (λ '(_, viol_list), length viol_list) new_violations) in
  log (Info_found total_new);;
  send_violation_report (notifier self) new_violations (block self) (lot self).

Definition adapter (s : source) (token : option string)
    (blk lt since_date : string) : M (list raw_record) :=
  match s with
  | Src311 => get_311_complaints token blk lt since_date
  | SrcHPD => get_hpd_violations token blk lt since_date
  | SrcOATH => get_oath_violations token blk lt since_date
  | SrcDOB => get_dob_violations token blk lt since_date
  end.

(** The Tracking Engine on one source: that source's loop, started on an
    empty novel-record list. *)
Definition engine (s : source) (blk lt : string)
    (records : list raw_record) : M (list raw_record) :=
  track_new (tag s) (id_field s) (date_field s) blk lt records [].

(** One source's share of a cycle: fetch, then track. *)
Definition stage (s : source) (self : ViolationMonitor) (yesterday : string)
    : M (list raw_record) :=
  records ← adapter s (api_token self) (block self) (lot self) yesterday;
  engine s (block self) (lot self) records.

(** The cycle, one stage per source: [collect_new_violations] with its
    four copies of fetch-and-track written through the descriptors. *)
Definition collect_by_stages (self : ViolationMonitor) : M violations :=
  log (Info_checking (block self) (lot self));;
  now ← datetime_now;
  let yesterday := strftime_Ymd (minus_one_day now) in
  new_311 ← stage Src311 self yesterday;
  new_hpd ← stage SrcHPD self yesterday;
  new_oath ← stage SrcOATH self yesterday;
  new_dob ← stage SrcDOB self yesterday;
  mret [ (tag Src311, new_311); (tag SrcHPD, new_hpd);
         (tag SrcOATH, new_oath); (tag SrcDOB, new_dob) ].

(** The store operations of [store_op], and a sequence of them run one
    after the other, each on the world the previous one left (whether or
    not it raised). *)
Definition run_op (op : store_op) : M unit :=
  match op with
  | OpInit => _init_database
  | OpExists src vid => is_new_violation src vid;; mret tt
  | OpInsert src vid blk lt vdate => track_violation src vid blk lt vdate
  end.

Definition run_ops (ops : list store_op) (w : world) : world :=
  foldl (λ w op, (run_op op w).2) w ops.

(** A computation that only talks to the SMTP server or logs: it leaves
    the store alone, and what it raises the server raised. *)
Definition smtp_only {A} (m : M A) : Prop :=
  ∀ w, db (m w).2 = db w ∧ ∀ e, (m w).1 = Raise e → ∃ c, smtp c = Some e.

(** The message [send_violation_report] builds for a report at clock
    reading [now]. *)
Definition report_message (self : EmailNotifier) (vs : violations)
    (blk lt : string) (now : datetime) : message :=
  {| msg_From := from_email self;
     msg_To := String.concat ", " (to_emails self);
     msg_Subject := "NYC Property Violations - Block " +:+ blk
                    +:+ ", Lot " +:+ lt;
     msg_body :=
       {| body_block := blk; body_lot := lt;
          body_date := strftime_Ymd now;
          body_sections :=
            map (λ '(source, viol_list),
                   (source,
                    match viol_list with
                    | [] => BodyNoViolations
                    | _ :: _ => section_table source viol_list
                    end)) vs |} |}.

(** ** The store *)

Lemma fetchone_select_1 src vid t :
  match fetchone (Sql.select_1 src vid t) with
  | None => true
  | Some _ => false
  end = negb (tracked t src vid).
Proof.
  unfold Sql.select_1, tracked, fetchone.
  induction (rows t) as [|r rs IH]; simpl; [done|].
  destruct (key_matches src vid r); simpl; [done|apply IH].
Qed.

Lemma key_matches_spec src vid r :
  key_matches src vid r = true ↔ row_key r = (src, vid).
Proof.
  unfold key_matches, row_key. rewrite andb_true_iff, !String.eqb_eq.
  split; [intros [-> ->]; done | intros [= -> ->]; done].
Qed.

Lemma tracked_spec t src vid :
  tracked t src vid = true ↔ (src, vid) ∈ map row_key (rows t).
Proof.
  unfold tracked. rewrite existsb_exists, list_elem_of_fmap.
  split.
  - intros (r & Hin & Hk). exists r. apply key_matches_spec in Hk.
    split; [done | by apply list_elem_of_In].
  - intros (r & Hk & Hin). exists r.
    split; [by apply list_elem_of_In | by apply key_matches_spec].
Qed.

Lemma tracked_insert src vid blk lt vdate cdate t src' vid' :
  tracked (Sql.insert_or_ignore (Some src) (Some vid) (Some blk) (Some lt)
             (Some vdate) (Some cdate) t) src' vid'
  = tracked t src' vid' || (String.eqb src src' && String.eqb vid vid').
Proof.
  unfold Sql.insert_or_ignore, tracked.
  destruct (existsb (key_matches src vid) (rows t)) eqn:E; simpl.
  - destruct (String.eqb_spec src src') as [<-|]; simpl;
      [|by rewrite orb_false_r].
    destruct (String.eqb_spec vid vid') as [<-|]; simpl;
      [|by rewrite orb_false_r].
    by rewrite E.
  - rewrite existsb_app. simpl. unfold key_matches at 2. simpl.
    by rewrite orb_false_r.
Qed.

Lemma rows_insert_conflict src vid blk lt vdate cdate t :
  tracked t src vid = true →
  rows (Sql.insert_or_ignore (Some src) (Some vid) blk lt vdate cdate t)
  = rows t.
Proof.
  unfold Sql.insert_or_ignore, tracked. intros ->.
  by destruct blk, lt, vdate, cdate.
Qed.

Lemma rows_insert_no_date src vid blk lt cdate t :
  rows (Sql.insert_or_ignore src vid blk lt None cdate t) = rows t.
Proof. unfold Sql.insert_or_ignore. by destruct src, vid, blk, lt. Qed.

Lemma insert_unique_keys src vid blk lt vdate cdate t :
  unique_keys t →
  unique_keys (Sql.insert_or_ignore src vid blk lt vdate cdate t).
Proof.
  unfold unique_keys, Sql.insert_or_ignore. intros Hu.
  destruct src as [src|], vid as [vid|], blk, lt, vdate, cdate; simpl; try done.
  destruct (existsb (key_matches src vid) (rows t)) eqn:E; simpl; [done|].
  rewrite map_app. simpl. apply NoDup_app. split; [done|].
  split; [|apply NoDup_singleton].
  intros k Hk ->%list_elem_of_singleton. unfold row_key in Hk. simpl in Hk.
  apply tracked_spec in Hk. unfold tracked in Hk. congruence.
Qed.

Lemma is_new_violation_run src vid w t :
  db w = Some t →
  is_new_violation src vid w = (Ok (negb (tracked t src vid)), w).
Proof.
  intros Hdb.
  unfold is_new_violation, sqlite3_connect, lift_result, execute_select,
    close, mbind, M_bind, mret, M_ret. simpl.
  rewrite Hdb. simpl. by rewrite fetchone_select_1.
Qed.

Lemma is_new_violation_no_table src vid w :
  db w = None →
  is_new_violation src vid w = (Raise OperationalError, w).
Proof.
  intros Hdb.
  unfold is_new_violation, sqlite3_connect, lift_result, execute_select,
    mbind, M_bind. simpl. by rewrite Hdb.
Qed.

Lemma track_violation_run src vid blk lt vdate w t :
  db w = Some t →
  track_violation src vid blk lt vdate w =
    (Ok tt,
     {| db := Some (Sql.insert_or_ignore (Some src) (Some vid) (Some blk)
                      (Some lt) vdate
                      (Some (isoformat (clock (ticks w)))) t);
        ticks := S (ticks w);
        trace := trace w |}).
Proof.
  intros Hdb.
  unfold track_violation, sqlite3_connect, datetime_now, lift_result,
    execute_insert, commit, close, set_db, mbind, M_bind, mret, M_ret.
  simpl. by rewrite Hdb.
Qed.

Lemma track_violation_no_table src vid blk lt vdate w :
  db w = None →
  track_violation src vid blk lt vdate w =
    (Raise OperationalError,
     {| db := None; ticks := S (ticks w); trace := trace w |}).
Proof.
  intros Hdb.
  unfold track_violation, sqlite3_connect, datetime_now, lift_result,
    execute_insert, mbind, M_bind. simpl. by rewrite Hdb.
Qed.

Lemma _init_database_run w :
  _init_database w =
    (Ok tt, set_db (Sql.create_table_if_not_exists (db w)) w).
Proof. reflexivity. Qed.

Lemma filter_untracked (rs : list row) src vid :
  existsb (key_matches src vid) rs = false →
  List.filter (key_matches src vid) rs = [].
Proof.
  induction rs as [|r rs IH]; simpl; [done|].
  destruct (key_matches src vid r); simpl; [done|apply IH].
Qed.

Lemma count_key_unique t src vid :
  unique_keys t → tracked t src vid = true → count_key t src vid = 1.
Proof.
  unfold unique_keys, tracked, count_key.
  induction (rows t) as [|r rs IH]; simpl; [done|].
  intros [Hnotin Hnd]%NoDup_cons.
  destruct (key_matches src vid r) eqn:Hk; simpl.
  - intros _. rewrite filter_untracked; [done|].
    apply key_matches_spec in Hk. rewrite Hk in Hnotin.
    destruct (existsb (key_matches src vid) rs) eqn:E; [|done].
    exfalso. apply Hnotin. by apply (tracked_spec {| rows := rs; seq := 0 |}).
  - by apply IH.
Qed.

(** ** The invariant of the store: one row per pair *)

Lemma empty_store_ok d : empty_store d → store_ok d.
Proof.
  destruct d as [t|]; simpl; [|done].
  unfold unique_keys. intros ->. apply NoDup_nil_2.
Qed.

Lemma run_op_store_ok op w :
  store_ok (db w) → store_ok (db (run_op op w).2).
Proof.
  intros Hok. destruct op as [|src vid|src vid blk lt vdate]; unfold run_op.
  - rewrite _init_database_run. simpl.
    destruct (db w); simpl; [done | apply NoDup_nil_2].
  - unfold mbind, M_bind. destruct (db w) as [t|] eqn:Hdb.
    + rewrite (is_new_violation_run _ _ _ t Hdb). simpl. by rewrite Hdb.
    + rewrite (is_new_violation_no_table _ _ _ Hdb). simpl. by rewrite Hdb.
  - destruct (db w) as [t|] eqn:Hdb.
    + rewrite (track_violation_run _ _ _ _ _ _ t Hdb). simpl.
      by apply insert_unique_keys.
    + by rewrite (track_violation_no_table _ _ _ _ _ _ Hdb).
Qed.

Lemma run_ops_store_ok ops w :
  store_ok (db w) → store_ok (db (run_ops ops w)).
Proof.
  revert w. induction ops as [|op ops IH]; intros w Hok; simpl; [done|].
  apply IH. by apply run_op_store_ok.
Qed.

(** ** The loop of the Tracking Engine *)

Lemma track_new_cons src idf datef blk lt r rest acc w :
  track_new src idf datef blk lt (r :: rest) acc w =
    match r !! idf with
    | Some vid =>
        if truthy (Some vid) then
          match is_new_violation src vid w with
          | (Ok true, w1) =>
              match track_violation src vid blk lt (r !! datef) w1 with
              | (Ok _, w2) =>
                  track_new src idf datef blk lt rest (acc ++ [r]) w2
              | (Raise e, w2) => (Raise e, w2)
              end
          | (Ok false, w1) => track_new src idf datef blk lt rest acc w1
          | (Raise e, w1) => (Raise e, w1)
          end
        else track_new src idf datef blk lt rest acc w
    | None => track_new src idf datef blk lt rest acc w
    end.
Proof.
  simpl. destruct (r !! idf) as [vid|]; [|done].
  unfold truthy. destruct (negb (String.eqb vid "")); [|done].
  unfold mbind, M_bind.
  by destruct (is_new_violation src vid w) as [[[]|] ?].
Qed.

#[local] Arguments track_new : simpl never.

Lemma track_new_skip src idf datef blk lt r rest acc w :
  truthy (r !! idf) = false →
  track_new src idf datef blk lt (r :: rest) acc w
  = track_new src idf datef blk lt rest acc w.
Proof.
  intros Hid. rewrite track_new_cons.
  destruct (r !! idf) as [vid|]; [|done]. by rewrite Hid.
Qed.

Lemma track_new_seen src idf datef blk lt r rest acc w t :
  db w = Some t →
  truthy (r !! idf) = true →
  tracked t src (default "" (r !! idf)) = true →
  track_new src idf datef blk lt (r :: rest) acc w
  = track_new src idf datef blk lt rest acc w.
Proof.
  intros Hdb Hid Htr. rewrite track_new_cons.
  destruct (r !! idf) as [vid|]; [|done]. simpl in Htr. rewrite Hid.
  by rewrite (is_new_violation_run _ _ _ t Hdb), Htr.
Qed.

Lemma track_new_novel src idf datef blk lt r rest acc w t :
  db w = Some t →
  truthy (r !! idf) = true →
  tracked t src (default "" (r !! idf)) = false →
  track_new src idf datef blk lt (r :: rest) acc w
  = track_new src idf datef blk lt rest (acc ++ [r])
      {| db := Some (Sql.insert_or_ignore (Some src) (r !! idf) (Some blk)
                       (Some lt) (r !! datef)
                       (Some (isoformat (clock (ticks w)))) t);
         ticks := S (ticks w);
         trace := trace w |}.
Proof.
  intros Hdb Hid Htr. rewrite track_new_cons.
  destruct (r !! idf) as [vid|]; [|done]. simpl in Htr. rewrite Hid.
  rewrite (is_new_violation_run _ _ _ t Hdb), Htr. simpl.
  by rewrite (track_violation_run _ _ _ _ _ _ t Hdb).
Qed.

Lemma track_new_app src idf datef blk lt pre post :
  ∀ acc w,
    track_new src idf datef blk lt (pre ++ post) acc w =
      match track_new src idf datef blk lt pre acc w with
      | (Ok acc', w') => track_new src idf datef blk lt post acc' w'
      | (Raise e, w') => (Raise e, w')
      end.
Proof.
  induction pre as [|r pre IH]; intros acc w; [done|].
  rewrite <- app_comm_cons, !track_new_cons.
  destruct (r !! idf) as [vid|]; [|apply IH].
  destruct (truthy (Some vid)); [|apply IH].
  destruct (is_new_violation src vid w) as [[[]|e] w1]; [|apply IH|done].
  destruct (track_violation src vid blk lt (r !! datef) w1) as [[[]|e] w2];
    [apply IH|done].
Qed.

(** What the loop appends comes from its input and has an identifier. *)
Lemma track_new_output src idf datef blk lt records :
  ∀ acc w out w',
    track_new src idf datef blk lt records acc w = (Ok out, w') →
    ∃ novel, out = acc ++ novel
             ∧ Forall (λ r, r ∈ records ∧ truthy (r !! idf) = true) novel.
Proof.
  induction records as [|r rest IH]; intros acc w out w' Hrun.
  - injection Hrun as <- <-. exists []. by rewrite app_nil_r.
  - assert (Hweaken : ∀ acc0 w0,
              track_new src idf datef blk lt rest acc0 w0 = (Ok out, w') →
              ∃ novel, out = acc0 ++ novel
                ∧ Forall (λ x, x ∈ r :: rest ∧ truthy (x !! idf) = true) novel).
    { intros acc0 w0 H0. destruct (IH _ _ _ _ H0) as (novel & -> & Hall).
      exists novel. split; [done|].
      eapply Forall_impl; [exact Hall|]. intros x [? ?].
      split; [by apply list_elem_of_further | done]. }
    rewrite track_new_cons in Hrun.
    destruct (r !! idf) as [vid|] eqn:Hid; [|by eapply Hweaken].
    destruct (truthy (Some vid)) eqn:Htruthy; [|by eapply Hweaken].
    destruct (is_new_violation src vid w) as [[[]|e] w1];
      [|by eapply Hweaken|done].
    destruct (track_violation src vid blk lt (r !! datef) w1) as [[[]|e] w2];
      [|done].
    destruct (IH _ _ _ _ Hrun) as (novel & -> & Hall).
    exists (r :: novel). split; [by rewrite <- app_assoc|].
    constructor.
    + split; [apply list_elem_of_here | by rewrite Hid].
    + eapply Forall_impl; [exact Hall|]. intros x [? ?].
      split; [by apply list_elem_of_further | done].
Qed.

(** First run: while the table tracks what [t0] tracked plus the
    identifiers in [seen], the loop appends the first unseen record of
    each further identifier, and ends with every identifier tracked. *)
Lemma track_new_first_run s blk lt t0 records :
  ∀ acc seen w t,
    db w = Some t →
    Forall (dated s) records →
    (∀ v, tracked t (tag s) v
          = tracked t0 (tag s) v || bool_decide (v ∈ seen)) →
    ∃ w' t',
      track_new (tag s) (id_field s) (date_field s) blk lt records acc w
      = (Ok (acc ++ first_by_id (id_field s) seen (unseen_records s t0 records)),
         w')
      ∧ db w' = Some t'
      ∧ (∀ v, tracked t (tag s) v = true → tracked t' (tag s) v = true)
      ∧ Forall (λ r, truthy (r !! id_field s) = true →
                     tracked t' (tag s) (default "" (r !! id_field s)) = true)
          records.
Proof.
  induction records as [|r rest IH]; intros acc seen w t Hdb Hdated Hinv.
  { exists w, t. simpl. rewrite app_nil_r. by repeat split. }
  apply Forall_cons in Hdated as [Hr Hrest].
  unfold unseen_records. simpl. unfold unseen at 1.
  destruct (truthy (r !! id_field s)) eqn:Hid; simpl.
  - destruct (r !! id_field s) as [v|] eqn:Hv; [|done]. simpl.
    destruct (tracked t (tag s) v) eqn:Htr.
    + (* already tracked: in [t0], or by an earlier record of this run *)
      rewrite (track_new_seen _ _ _ _ _ _ _ _ _ t Hdb);
        [|by rewrite Hv|by rewrite Hv].
      destruct (IH acc seen w t Hdb Hrest Hinv) as (w' & t' & Hrun & Hdb' & Hmono & Hall).
      exists w', t'. repeat split; [|done|done|].
      * rewrite Hrun. f_equal. f_equal.
        rewrite Hinv in Htr.
        destruct (tracked t0 (tag s) v); simpl; [done|].
        simpl in Htr. rewrite Hv, Htr. done.
      * constructor; [|done]. rewrite Hv. simpl. intros _. by apply Hmono.
    + (* novel: reported, then inserted *)
      rewrite (track_new_novel _ _ _ _ _ _ _ _ _ t Hdb);
        [|by rewrite Hv|by rewrite Hv].
      destruct Hr as [d Hd]; [by rewrite Hv|]. rewrite Hv, Hd.
      set (t1 := Sql.insert_or_ignore _ _ _ _ _ _ t).
      set (w1 := {| db := Some t1; ticks := S (ticks w); trace := trace w |}).
      assert (Ht1 : ∀ v', tracked t1 (tag s) v'
                          = tracked t (tag s) v' || String.eqb v v').
      { intros v'. unfold t1. rewrite tracked_insert.
        by rewrite String.eqb_refl. }
      assert (Hinv1 : ∀ v', tracked t1 (tag s) v'
                = tracked t0 (tag s) v' || bool_decide (v' ∈ v :: seen)).
      { intros v'. rewrite Ht1, Hinv, <- orb_assoc. f_equal.
        destruct (String.eqb_spec v v') as [<-|Hne].
        - rewrite orb_true_r. symmetry. apply bool_decide_eq_true.
          apply list_elem_of_here.
        - rewrite orb_false_r. apply bool_decide_ext.
          rewrite elem_of_cons.
          split; [by right | intros [->|?]; [by destruct Hne | done]]. }
      destruct (IH (acc ++ [r]) (v :: seen) w1 t1 eq_refl Hrest Hinv1)
        as (w' & t' & Hrun & Hdb' & Hmono & Hall).
      rewrite Hinv in Htr. apply orb_false_iff in Htr as [Ht0 Hseen].
      exists w', t'. repeat split; [|done| |].
      * rewrite Hrun, Ht0. simpl. rewrite Hv, Hseen.
        by rewrite <- app_assoc.
      * intros v' Hv'. apply Hmono. rewrite Ht1, Hv'. done.
      * constructor; [|done]. rewrite Hv. simpl. intros _. apply Hmono.
        rewrite Ht1, String.eqb_refl. apply orb_true_r.
  - rewrite track_new_skip; [|done].
    destruct (IH acc seen w t Hdb Hrest Hinv) as (w' & t' & Hrun & Hdb' & Hmono & Hall).
    exists w', t'. repeat split; [done..|].
    constructor; [|done]. intros. congruence.
Qed.

(** Second run: when every identifier of the input is tracked, the loop
    reports nothing and changes nothing. *)
Lemma track_new_all_tracked src idf datef blk lt records :
  ∀ acc w t,
    db w = Some t →
    Forall (λ r, truthy (r !! idf) = true →
                 tracked t src (default "" (r !! idf)) = true) records →
    track_new src idf datef blk lt records acc w = (Ok acc, w).
Proof.
  induction records as [|r rest IH]; intros acc w t Hdb Hall; [done|].
  apply Forall_cons in Hall as [Hr Hrest].
  destruct (truthy (r !! idf)) eqn:Hid.
  - rewrite (track_new_seen _ _ _ _ _ _ _ _ _ t Hdb); [|done|by apply Hr].
    by apply (IH acc w t).
  - rewrite track_new_skip; [|done]. by apply (IH acc w t).
Qed.

Lemma is_new_violation_pure src vid w :
  (is_new_violation src vid w).2 = w.
Proof.
  destruct (db w) as [t|] eqn:Hdb.
  - by rewrite (is_new_violation_run _ _ _ t Hdb).
  - by rewrite (is_new_violation_no_table _ _ _ Hdb).
Qed.

Lemma bind_assoc_run {A B C} (m : M A) (f : A → M B) (g : B → M C) w :
  ((m ≫= f) ≫= g) w = (m ≫= λ a, f a ≫= g) w.
Proof. unfold mbind, M_bind. by destruct (m w) as [[a|e] w']. Qed.

Lemma bind_ext_run {A B} (m : M A) (f g : A → M B) w :
  (∀ a w', f a w' = g a w') → (m ≫= f) w = (m ≫= g) w.
Proof.
  intros Hfg. unfold mbind, M_bind. destruct (m w) as [[a|e] w']; [|done].
  apply Hfg.
Qed.

Lemma collect_by_stages_eq self w :
  collect_new_violations self w = collect_by_stages self w.
Proof.
  unfold collect_new_violations, collect_by_stages, stage, engine, adapter.
  apply bind_ext_run; intros _ w1.
  apply bind_ext_run; intros now w2. cbn zeta.
  rewrite bind_assoc_run. apply bind_ext_run; intros r1 w3.
  apply bind_ext_run; intros n1 w4.
  rewrite bind_assoc_run. apply bind_ext_run; intros r2 w5.
  apply bind_ext_run; intros n2 w6.
  rewrite bind_assoc_run. apply bind_ext_run; intros r3 w7.
  apply bind_ext_run; intros n3 w8.
  rewrite bind_assoc_run. apply bind_ext_run; intros r4 w9.
  done.
Qed.

(** ** Properties of the Record Store and of the Tracking Engine *)

(** C1 (amended): for every store and every raw-record sequence of a
    source in which each record that has an identifier also has the
    source's date field, the Tracking Engine returns the records whose
    identifier is present, not empty and without a row in the store,
    keeping the first record of each identifier, in input order; run
    again on the same input against the store it left, it returns the
    empty list (and changes nothing). *)
Theorem C1_novelty_first_unseen s blk lt records w t :
  db w = Some t →
  Forall (dated s) records →
  ∃ w1,
    engine s blk lt records w
    = (Ok (first_by_id (id_field s) [] (unseen_records s t records)), w1)
    ∧ engine s blk lt records w1 = (Ok [], w1).
Proof.
  intros Hdb Hdated.
  destruct (track_new_first_run s blk lt t records [] [] w t Hdb Hdated)
    as (w1 & t1 & Hrun & Hdb1 & _ & Hall).
  { intros v. rewrite bool_decide_eq_false_2; [by rewrite orb_false_r|].
    apply not_elem_of_nil. }
  exists w1. split; [exact Hrun|].
  by apply (track_new_all_tracked _ _ _ _ _ _ _ _ t1).
Qed.

(** C2: on a store with one row per pair, two calls of [track_violation]
    with the same (source, violation_id) and string dates both return
    normally; after the first there is exactly one row for the pair, the
    second leaves every row as it was, and when the pair was new that
    row carries the block, lot and date of the first call and the time
    of the first call. *)
Theorem C2_idempotent_insert src vid blk lt vdate blk' lt' vdate' w t :
  db w = Some t →
  unique_keys t →
  ∃ w1 w2 t1 t2,
    track_violation src vid blk lt (Some vdate) w = (Ok tt, w1)
    ∧ track_violation src vid blk' lt' (Some vdate') w1 = (Ok tt, w2)
    ∧ db w1 = Some t1 ∧ db w2 = Some t2
    ∧ count_key t1 src vid = 1
    ∧ rows t2 = rows t1
    ∧ (tracked t src vid = false →
       ∃ rid,
         List.filter (key_matches src vid) (rows t2)
         = [ {| row_id := rid; row_source := src; row_violation_id := vid;
                row_block := blk; row_lot := lt;
                row_violation_date := vdate;
                row_created_date := isoformat (clock (ticks w)) |} ]).
Proof.
  intros Hdb Huniq.
  set (t1 := Sql.insert_or_ignore (Some src) (Some vid) (Some blk) (Some lt)
               (Some vdate) (Some (isoformat (clock (ticks w)))) t).
  set (w1 := {| db := Some t1; ticks := S (ticks w); trace := trace w |}).
  set (t2 := Sql.insert_or_ignore (Some src) (Some vid) (Some blk') (Some lt')
               (Some vdate') (Some (isoformat (clock (ticks w1)))) t1).
  set (w2 := {| db := Some t2; ticks := S (ticks w1); trace := trace w1 |}).
  assert (Htr1 : tracked t1 src vid = true).
  { unfold t1. rewrite tracked_insert, !String.eqb_refl. apply orb_true_r. }
  assert (Hrows : rows t2 = rows t1) by by apply rows_insert_conflict.
  exists w1, w2, t1, t2.
  split; [by apply track_violation_run|].
  split; [by apply (track_violation_run _ _ _ _ _ w1 t1)|].
  repeat split; [| done |].
  - apply count_key_unique; [|done]. by apply insert_unique_keys.
  - intros Hnew. rewrite Hrows. exists (Sql.next_rowid t).
    unfold t1, Sql.insert_or_ignore. unfold tracked in Hnew. rewrite Hnew.
    simpl. rewrite List.filter_app, filter_untracked; [|done]. simpl.
    unfold key_matches. simpl. by rewrite !String.eqb_refl.
Qed.

(** C3: after any sequence of store operations (initialisation,
    existence checks, inserts) from an empty store, no two rows of the
    table have the same (source, violation_id); the table itself keeps
    it so, without a check by the caller: an insert of a pair that has a
    row returns normally and leaves the rows as they are. *)
Theorem C3_unique_pairs ops w :
  empty_store (db w) →
  ∀ t, db (run_ops ops w) = Some t →
    NoDup (map row_key (rows t))
    ∧ ∀ src vid blk lt vdate,
        tracked t src vid = true →
        ∃ w' t',
          track_violation src vid blk lt vdate (run_ops ops w) = (Ok tt, w')
          ∧ db w' = Some t' ∧ rows t' = rows t.
Proof.
  intros Hempty t Hdb. split.
  - pose proof (run_ops_store_ok ops w (empty_store_ok _ Hempty)) as Hok.
    by rewrite Hdb in Hok.
  - intros src vid blk lt vdate Htr.
    rewrite (track_violation_run _ _ _ _ _ _ t Hdb).
    eexists _, _. split; [done|]. split; [done|].
    by apply rows_insert_conflict.
Qed.

(** C4: a record whose identifier field is absent or empty leaves no
    mark: the engine's result and the world it leaves (the store
    included) are those of the same input without the record, the
    record is not in the novel-record list, and on its own it yields the
    empty list and the world unchanged. *)
Theorem C4_missing_identifier_skipped s blk lt before r after w :
  r !! id_field s = None ∨ r !! id_field s = Some "" →
  engine s blk lt (before ++ r :: after) w
  = engine s blk lt (before ++ after) w
  ∧ (∀ novel w', engine s blk lt (before ++ r :: after) w = (Ok novel, w') →
                 r ∉ novel)
  ∧ engine s blk lt [r] w = (Ok [], w).
Proof.
  intros Hid.
  assert (Hfalsy : truthy (r !! id_field s) = false)
    by (destruct Hid as [-> | ->]; done).
  unfold engine. repeat split.
  - rewrite !track_new_app.
    destruct (track_new _ _ _ _ _ before [] w) as [[acc|e] w1]; [|done].
    by apply track_new_skip.
  - intros novel w' Hrun Hin.
    apply track_new_output in Hrun as (novel' & -> & Hall).
    rewrite app_nil_l in Hin.
    rewrite Forall_forall in Hall. destruct (Hall r Hin) as [_ Htruthy].
    congruence.
  - by rewrite track_new_skip.
Qed.

(** C5: the code of the cycle is its four stages, each reading the
    identifier from its own field: whether a record is novel for a
    source, and the [violation_id] of the row inserted for it, depend on
    the record only through that source's identifier field; the four
    field names differ from one another, and none is a plain [id]. *)
Theorem C5_native_identifier_fields :
  (∀ self w, collect_new_violations self w = collect_by_stages self w)
  ∧ (∀ s blk lt r w t,
       db w = Some t →
       engine s blk lt [r] w
       = if truthy (r !! id_field s)
            && negb (tracked t (tag s) (default "" (r !! id_field s)))
         then (Ok [r],
               {| db := Some (Sql.insert_or_ignore (Some (tag s))
                                (r !! id_field s) (Some blk) (Some lt)
                                (r !! date_field s)
                                (Some (isoformat (clock (ticks w)))) t);
                  ticks := S (ticks w);
                  trace := trace w |})
         else (Ok [], w))
  ∧ map id_field all_sources
    = ["unique_key"; "violationid"; "summons_number"; "isn_dob_bis_viol"]
  ∧ NoDup (map id_field all_sources)
  ∧ "id" ∉ map id_field all_sources.
Proof.
  split; [exact collect_by_stages_eq|]. split; [|split; [done|]].
  - intros s blk lt r w t Hdb. unfold engine.
    destruct (truthy (r !! id_field s)) eqn:Hid; simpl.
    + destruct (tracked t (tag s) (default "" (r !! id_field s))) eqn:Htr;
        simpl.
      * by rewrite (track_new_seen _ _ _ _ _ _ _ _ _ t Hdb).
      * by rewrite (track_new_novel _ _ _ _ _ _ _ _ _ t Hdb).
    + by rewrite track_new_skip.
  - split; [|compute_done]. compute_done.
Qed.

(** ** The adapters *)

Lemma string_app_assoc (a b c : string) : (a +:+ b) +:+ c = a +:+ (b +:+ c).
Proof.
  induction a as [|x a IH]; [done|].
  change (String x ((a +:+ b) +:+ c) = String x (a +:+ (b +:+ c))).
  by f_equal.
Qed.

Lemma _make_request_run token ep p w :
  _make_request token ep p w =
    let url := base_url +:+ "/" +:+ ep +:+ ".json" in
    let w1 := emit (EvGet url (with_token token p) 30) w in
    match requests_get url (with_token token p) with
    | Response json => (Ok json, w1)
    | Failure e =>
        if isinstance_RequestException e
        then (Ok [], emit (EvLog (Error_fetching ep e)) w1)
        else (Raise e, w1)
    end.
Proof.
  unfold _make_request, try_except, http_get, with_token. simpl.
  destruct (requests_get _ _) as [json|e]; [done|].
  by destruct (isinstance_RequestException e).
Qed.

Lemma with_token_lookup token p k :
  k ≠ "$$app_token" → with_token token p !! k = p !! k.
Proof.
  intros Hk. unfold with_token. destruct token as [tok|]; [|done].
  destruct (truthy (Some tok)); [|done]. by rewrite lookup_insert_ne.
Qed.

Lemma adapter_request s token blk lt since_date :
  adapter s token blk lt since_date
  = _make_request token (endpoint s) (request_params s blk lt since_date).
Proof.
  destruct s; unfold adapter, get_311_complaints, get_hpd_violations,
    get_oath_violations, get_dob_violations, request_params, subject_filter;
    cbn zeta; do 3 f_equal; rewrite ?string_app_assoc; reflexivity.
Qed.

(** C6: whatever the source, the subject and the cutoff date, the
    adapter sends one request, to the source's endpoint, whose [$where]
    is the source's subject filter AND the source's own date field
    [> 'cutoff'], whose [$order] is that date field DESC, and whose
    [$limit] is 1000; the date field is the one the Tracking Engine
    stores for the source. *)
Theorem C6_request_filter_order_cap s token blk lt since_date w :
  ∃ p tail,
    trace (adapter s token blk lt since_date w).2
    = trace w ++ EvGet (url_of s) p 30 :: tail
    ∧ (tail = [] ∨ ∃ e, tail = [EvLog (Error_fetching (endpoint s) e)])
    ∧ p !! "$where"
      = Some (PStr (subject_filter s blk lt +:+ " AND " +:+ date_field s
                    +:+ " > '" +:+ since_date +:+ "'"))
    ∧ p !! "$order" = Some (PStr (date_field s +:+ " DESC"))
    ∧ p !! "$limit" = Some (PInt 1000).
Proof.
  rewrite adapter_request, _make_request_run. cbn zeta.
  exists (with_token token (request_params s blk lt since_date)).
  fold (url_of s).
  destruct (requests_get _ _) as [json|e];
    [exists [] | destruct (isinstance_RequestException e);
                 [exists [EvLog (Error_fetching (endpoint s) e)] | exists []]];
    simpl; (split; [by rewrite <- ?app_assoc|]);
    (split; [eauto|]);
    rewrite !with_token_lookup by done; unfold request_params;
    by simplify_map_eq.
Qed.

(** ** The notifier *)

Lemma smtp_only_ret {A} (a : A) : smtp_only (mret a).
Proof. intros w. split; [done|]. intros e [=]. Qed.

Lemma smtp_only_log l : smtp_only (log l).
Proof. intros w. split; [done|]. intros e [=]. Qed.

Lemma smtp_only_do c : smtp_only (smtp_do c).
Proof.
  intros w. unfold smtp_do. simpl. split; [done|].
  intros e He. exists c. destruct (smtp c); congruence.
Qed.

Lemma smtp_only_bind {A B} (m : M A) (f : A → M B) :
  smtp_only m → (∀ a, smtp_only (f a)) → smtp_only (m ≫= f).
Proof.
  intros Hm Hf w. unfold mbind, M_bind.
  destruct (Hm w) as [Hdb Hraise].
  destruct (m w) as [[a|e] w1]; simpl in *.
  - destruct (Hf a w1) as [Hdb1 Hraise1]. split; [congruence | done].
  - split; [done|]. intros e' [= <-]. by apply Hraise.
Qed.

Lemma smtp_only_for_each {A} (xs : list A) (body : A → M unit) :
  (∀ x, smtp_only (body x)) → smtp_only (for_each xs body).
Proof.
  intros Hbody. induction xs as [|x xs IH]; simpl.
  - apply smtp_only_ret.
  - apply smtp_only_bind; [apply Hbody | intros _; apply IH].
Qed.

Lemma send_violation_report_nothing_new self vs blk lt w :
  Forall (λ kv : string * list raw_record, kv.2 = []) vs →
  send_violation_report self vs blk lt w
  = (Ok tt, emit (EvLog Info_no_new_violations) w).
Proof.
  intros Hempty. unfold send_violation_report.
  assert (any_values vs = false) as ->; [|done].
  unfold any_values. induction Hempty as [|[k l] vs Hl _ IH]; [done|].
  simpl in *. by rewrite Hl.
Qed.

Lemma send_violation_report_keeps_store self vs blk lt w :
  (∀ c e, smtp c = Some e → isinstance_Exception e = true) →
  ∃ w', send_violation_report self vs blk lt w = (Ok tt, w')
        ∧ db w' = db w.
Proof.
  intros Hexn. unfold send_violation_report.
  destruct (negb (any_values vs)); [by eexists|].
  unfold mbind at 1, M_bind at 1. simpl.
  set (w1 := {| db := db w; ticks := S (ticks w); trace := trace w |}).
  set (body := {| body_block := blk |}).
  unfold try_except.
  match goal with
  | |- context [match ?m w1 with _ => _ end] =>
      assert (Hsession : smtp_only m);
      [| destruct (Hsession w1) as [Hdb Hraise];
         destruct (m w1) as [[[]|e] w2] ]
  end.
  - repeat first
      [ apply smtp_only_bind; [|intros _]
      | apply smtp_only_do
      | apply smtp_only_log
      | apply smtp_only_for_each; intros ? ].
  - by eexists.
  - destruct (Hraise e eq_refl) as [c Hc]. rewrite (Hexn c e Hc).
    by eexists.
Qed.

Lemma sum_lengths_nothing_new (vs : violations) :
  Forall (λ kv : string * list raw_record, kv.2 = []) vs →
  sum_list (map (λ '(_, viol_list), length viol_list) vs) = 0.
Proof.
  induction 1 as [|[k l] vs Hl _ IH]; [done|].
  simpl in *. by rewrite Hl, IH.
Qed.

(** C8: when the four stages of a cycle have run, the rest of
    [check_violations] returns normally whatever the SMTP server does
    (every failure it raises being an [Exception]) and leaves the
    database as the stages left it: no insert is undone. *)
Theorem C8_delivery_failure_keeps_store self w new_violations w1 :
  (∀ c e, smtp c = Some e → isinstance_Exception e = true) →
  collect_new_violations self w = (Ok new_violations, w1) →
  ∃ w2, check_violations self w = (Ok tt, w2) ∧ db w2 = db w1.
Proof.
  intros Hexn Hcollect. unfold check_violations, mbind, M_bind.
  rewrite Hcollect. simpl.
  destruct (send_violation_report_keeps_store (notifier self) new_violations
              (block self) (lot self)
              (emit (EvLog (Info_found
                 (sum_list (map (λ '(_, viol_list), length viol_list)
                              new_violations)))) w1) Hexn)
    as (w2 & Hsend & Hdb).
  exists w2. split; [exact Hsend | exact Hdb].
Qed.

(** C9: when every novel-record list is empty, [send_violation_report]
    only logs that there is nothing to report: it reads no clock (builds
    no message body) and makes no SMTP call; a cycle whose four lists
    are empty ends with that log entry and nothing else. *)
Theorem C9_no_report_when_nothing_new self :
  (∀ vs blk lt w,
     Forall (λ kv : string * list raw_record, kv.2 = []) vs →
     send_violation_report (notifier self) vs blk lt w
     = (Ok tt, emit (EvLog Info_no_new_violations) w))
  ∧ (∀ w new_violations w1,
       collect_new_violations self w = (Ok new_violations, w1) →
       Forall (λ kv : string * list raw_record, kv.2 = []) new_violations →
       check_violations self w
       = (Ok tt, emit (EvLog Info_no_new_violations)
                   (emit (EvLog (Info_found 0)) w1))).
Proof.
  split.
  - intros. by apply send_violation_report_nothing_new.
  - intros w nv w1 Hcollect Hempty.
    unfold check_violations, mbind, M_bind. rewrite Hcollect. simpl.
    rewrite sum_lengths_nothing_new by done.
    by apply send_violation_report_nothing_new.
Qed.

(** ** Further properties of the store *)

(** X1: [_init_database] can be run on every start.  It returns
    normally whether or not the table exists, creates the empty table
    when there is none and otherwise leaves the table as it is; a second
    run changes nothing; and after it the existence check answers instead
    of raising. *)
Theorem X1_init_database_idempotent src vid w :
  let w1 := set_db (Some (default empty_table (db w))) w in
  _init_database w = (Ok tt, w1)
  ∧ _init_database w1 = (Ok tt, w1)
  ∧ is_new_violation src vid w1
    = (Ok (negb (tracked (default empty_table (db w)) src vid)), w1).
Proof.
  cbn zeta. rewrite !_init_database_run. split; [|split].
  - by destruct (db w).
  - done.
  - by apply is_new_violation_run.
Qed.

(** X2: insert, then look up.  After [track_violation] with a string
    date, the existence check says that the pair is not new, and for
    every other pair it answers as it did before the insert. *)
Theorem X2_insert_then_exists src vid blk lt vdate w t :
  db w = Some t →
  ∃ w',
    track_violation src vid blk lt (Some vdate) w = (Ok tt, w')
    ∧ is_new_violation src vid w' = (Ok false, w')
    ∧ ∀ src' vid', (src', vid') ≠ (src, vid) →
        (is_new_violation src' vid' w').1 = (is_new_violation src' vid' w).1.
Proof.
  intros Hdb.
  set (t1 := Sql.insert_or_ignore (Some src) (Some vid) (Some blk) (Some lt)
               (Some vdate) (Some (isoformat (clock (ticks w)))) t).
  set (w1 := {| db := Some t1; ticks := S (ticks w); trace := trace w |}).
  exists w1. split; [by apply track_violation_run|]. split.
  - rewrite (is_new_violation_run _ _ w1 t1 eq_refl). unfold t1.
    by rewrite tracked_insert, !String.eqb_refl, orb_true_r.
  - intros src' vid' Hne.
    rewrite (is_new_violation_run _ _ w1 t1 eq_refl).
    rewrite (is_new_violation_run _ _ _ t Hdb). simpl. unfold t1.
    rewrite tracked_insert.
    destruct (String.eqb_spec src src') as [<-|]; [|by rewrite orb_false_r].
    destruct (String.eqb_spec vid vid') as [<-|]; [done|by rewrite orb_false_r].
Qed.

Lemma rows_insert_new src vid blk lt vdate cdate t :
  tracked t src vid = false →
  rows (Sql.insert_or_ignore (Some src) (Some vid) (Some blk) (Some lt)
          vdate (Some cdate) t)
  = rows t ++ match vdate with
              | Some d => [ {| row_id := Sql.next_rowid t; row_source := src;
                               row_violation_id := vid; row_block := blk;
                               row_lot := lt; row_violation_date := d;
                               row_created_date := cdate |} ]
              | None => []
              end.
Proof.
  unfold Sql.insert_or_ignore, tracked. intros ->.
  destruct vdate; simpl; [done | by rewrite app_nil_r].
Qed.

(** X3: without the table the store operations raise and write nothing;
    the Tracking Engine skips the records without identifier and raises
    [OperationalError] at the first record that has one. *)
Theorem X3_no_table_raises s blk lt records src vid vdate w :
  db w = None →
  is_new_violation src vid w = (Raise OperationalError, w)
  ∧ (track_violation src vid blk lt vdate w).1 = Raise OperationalError
  ∧ db (track_violation src vid blk lt vdate w).2 = None
  ∧ engine s blk lt records w
    = (if existsb (λ r : raw_record, truthy (r !! id_field s)) records
       then Raise OperationalError else Ok [], w).
Proof.
  intros Hdb. split; [by apply is_new_violation_no_table|].
  rewrite (track_violation_no_table _ _ _ _ _ _ Hdb).
  split; [done|]. split; [done|].
  unfold engine. generalize (@nil raw_record) as acc.
  induction records as [|r rest IH]; intros acc; [done|].
  rewrite track_new_cons. simpl.
  destruct (r !! id_field s) as [v|] eqn:Hv; simpl; [|apply IH].
  destruct (negb (String.eqb v "")); simpl; [|apply IH].
  by rewrite (is_new_violation_no_table _ _ _ Hdb).
Qed.

(** X4: [track_violation] with no date (Python [None]) returns normally
    and stores nothing: the rows are as before and every existence check
    answers as before. *)
Theorem X4_insert_without_date_ignored src vid blk lt w t :
  db w = Some t →
  ∃ w' t',
    track_violation src vid blk lt None w = (Ok tt, w')
    ∧ db w' = Some t' ∧ rows t' = rows t
    ∧ ∀ src' vid',
        (is_new_violation src' vid' w').1 = (is_new_violation src' vid' w).1.
Proof.
  intros Hdb.
  set (t1 := Sql.insert_or_ignore (Some src) (Some vid) (Some blk) (Some lt)
               None (Some (isoformat (clock (ticks w)))) t).
  set (w1 := {| db := Some t1; ticks := S (ticks w); trace := trace w |}).
  exists w1, t1. split; [by apply track_violation_run|]. split; [done|].
  split; [apply rows_insert_no_date|].
  intros src' vid'. rewrite (is_new_violation_run _ _ w1 t1 eq_refl).
  rewrite (is_new_violation_run _ _ _ t Hdb). simpl.
  unfold tracked, t1. by rewrite rows_insert_no_date.
Qed.

(** ** Further properties of the Tracking Engine *)

Lemma tracked_app_rows t t' added src vid :
  rows t' = rows t ++ added →
  tracked t' src vid = tracked t src vid || existsb (key_matches src vid) added.
Proof. unfold tracked. intros ->. apply existsb_app. Qed.

(** What a run of the loop does on a database that has the table, with no
    assumption on the records. *)
Lemma track_new_report s blk lt records :
  ∀ acc w t,
    db w = Some t →
    ∃ novel t' added,
      track_new (tag s) (id_field s) (date_field s) blk lt records acc w
      = (Ok (acc ++ novel),
         {| db := Some t'; ticks := ticks w + length novel; trace := trace w |})
      ∧ rows t' = rows t ++ added
      ∧ novel `sublist_of` records
      ∧ Forall (λ r, unseen s t r = true) novel
      ∧ length added ≤ length novel
      ∧ Forall (λ x, ∃ r, r ∈ novel ∧ row_describes s blk lt r x) added.
Proof.
  induction records as [|r rest IH]; intros acc w t Hdb.
  { exists [], t, []. rewrite !app_nil_r, Nat.add_0_r. simpl.
    destruct w; simpl in *; subst. by repeat split. }
  destruct (truthy (r !! id_field s)) eqn:Hid.
  - destruct (tracked t (tag s) (default "" (r !! id_field s))) eqn:Htr.
    + rewrite (track_new_seen _ _ _ _ _ _ _ _ _ t Hdb) by done.
      destruct (IH acc w t Hdb) as (novel & t' & added & Hrun & Hrows & Hsub & Hnew & Hlen & Hdesc).
      exists novel, t', added. repeat split; try done.
      by apply sublist_cons.
    + rewrite (track_new_novel _ _ _ _ _ _ _ _ _ t Hdb) by done.
      destruct (r !! id_field s) as [v|] eqn:Hv; [|done]. simpl in Htr.
      set (t1 := Sql.insert_or_ignore _ _ _ _ _ _ t).
      set (w1 := {| db := Some t1; ticks := S (ticks w); trace := trace w |}).
      pose proof (rows_insert_new (tag s) v blk lt (r !! date_field s)
                    (isoformat (clock (ticks w))) t Htr) as Hrows1.
      fold t1 in Hrows1.
      destruct (IH (acc ++ [r]) w1 t1 eq_refl)
        as (novel & t' & added & Hrun & Hrows & Hsub & Hnew & Hlen & Hdesc).
      exists (r :: novel), t'. eexists. split; [|split; [|split; [|split; [|split]]]].
      * rewrite Hrun. rewrite <- app_assoc. simpl.
        do 3 f_equal. lia.
      * rewrite Hrows, Hrows1, <- app_assoc. reflexivity.
      * by apply sublist_skip.
      * constructor.
        -- unfold unseen. by rewrite Hv, Hid; simpl; rewrite Htr.
        -- eapply Forall_impl; [exact Hnew|]. intros x. unfold unseen.
           intros [Hx1 Hx2]%andb_true_iff. rewrite Hx1. simpl.
           rewrite (tracked_app_rows t t1 _ _ _ Hrows1) in Hx2.
           apply negb_true_iff, orb_false_iff in Hx2 as [-> _]. done.
      * rewrite length_app. simpl. destruct (r !! date_field s); simpl; lia.
      * apply Forall_app. split.
        -- destruct (r !! date_field s) as [d|] eqn:Hd; [|constructor].
           constructor; [|constructor]. exists r.
           split; [apply list_elem_of_here|]. by repeat split.
        -- eapply Forall_impl; [exact Hdesc|]. intros x (r' & Hin & Hr').
           exists r'. split; [by apply list_elem_of_further | done].
  - rewrite track_new_skip by done.
    destruct (IH acc w t Hdb) as (novel & t' & added & Hrun & Hrows & Hsub & Hnew & Hlen & Hdesc).
    exists novel, t', added. repeat split; try done.
    by apply sublist_cons.
Qed.

(** X5: on a store that has the table the engine always returns
    normally, for every input; the novel-record list is a subsequence of
    the input (same records, same order), and each record in it has a
    non-empty identifier that had no row in the store when the run
    started. *)
Theorem X5_engine_reports_unseen_subsequence s blk lt records w t :
  db w = Some t →
  ∃ novel w',
    engine s blk lt records w = (Ok novel, w')
    ∧ novel `sublist_of` records
    ∧ Forall (λ r, unseen s t r = true) novel.
Proof.
  intros Hdb.
  destruct (track_new_report s blk lt records [] w t Hdb)
    as (novel & t' & added & Hrun & _ & Hsub & Hnew & _).
  exists novel. eexists. split; [exact Hrun|]. by split.
Qed.

(** X6: what a run of the engine leaves behind.  It reads the clock once
    per reported record, logs nothing and calls nothing outside; it keeps
    the rows that were there, in place, and appends at most one row per
    reported record. *)
Theorem X6_engine_effects s blk lt records w t :
  db w = Some t →
  ∃ novel t',
    engine s blk lt records w
    = (Ok novel,
       {| db := Some t'; ticks := ticks w + length novel; trace := trace w |})
    ∧ rows t `prefix_of` rows t'
    ∧ length (rows t') ≤ length (rows t) + length novel.
Proof.
  intros Hdb.
  destruct (track_new_report s blk lt records [] w t Hdb)
    as (novel & t' & added & Hrun & Hrows & _ & _ & Hlen & _).
  exists novel, t'. split; [exact Hrun|]. rewrite Hrows. split.
  - by apply prefix_app_r.
  - rewrite length_app. lia.
Qed.

(** X7: every row the engine appends describes a reported record: it has
    the source's tag, the monitored block and lot, and the identifier and
    the date of a record of the novel-record list. *)
Theorem X7_engine_rows_describe_reported s blk lt records w t :
  db w = Some t →
  ∃ novel w' t' added,
    engine s blk lt records w = (Ok novel, w')
    ∧ db w' = Some t'
    ∧ rows t' = rows t ++ added
    ∧ Forall (λ x, ∃ r, r ∈ novel ∧ row_describes s blk lt r x) added.
Proof.
  intros Hdb.
  destruct (track_new_report s blk lt records [] w t Hdb)
    as (novel & t' & added & Hrun & Hrows & _ & _ & _ & Hdesc).
  exists novel. eexists. exists t', added. split; [exact Hrun|]. by repeat split.
Qed.

Lemma existsb_none {A} (f : A → bool) (l : list A) :
  Forall (λ x, f x = false) l → existsb f l = false.
Proof. induction 1 as [|x l Hx _ IH]; simpl; [done | by rewrite Hx]. Qed.

Lemma tag_inj s s' : tag s = tag s' → s = s'.
Proof. by destruct s, s'. Qed.

(** X8: sources are tracked apart.  A run of the engine for one source
    changes nothing of what is tracked for another source, whatever the
    identifiers. *)
Theorem X8_engine_other_sources_untouched s s' blk lt records w t :
  db w = Some t →
  s' ≠ s →
  ∃ t', db (engine s blk lt records w).2 = Some t'
        ∧ ∀ vid, tracked t' (tag s') vid = tracked t (tag s') vid.
Proof.
  intros Hdb Hne.
  destruct (track_new_report s blk lt records [] w t Hdb)
    as (novel & t' & added & Hrun & Hrows & _ & _ & _ & Hdesc).
  exists t'. unfold engine. rewrite Hrun. split; [done|].
  intros vid. rewrite (tracked_app_rows t t' added _ _ Hrows).
  rewrite (existsb_none _ added); [apply orb_false_r|].
  eapply Forall_impl; [exact Hdesc|]. intros x (r & _ & Hsrc & _).
  unfold key_matches. rewrite Hsrc.
  destruct (String.eqb_spec (tag s) (tag s')) as [Heq|]; [|done].
  destruct Hne. symmetry. by apply tag_inj.
Qed.

Lemma first_by_id_fresh field records :
  ∀ seen,
    NoDup (omap (λ r : raw_record, r !! field) (first_by_id field seen records))
    ∧ ∀ v, v ∈ omap (λ r : raw_record, r !! field)
                 (first_by_id field seen records) → v ∉ seen.
Proof.
  induction records as [|r rest IH]; intros seen; simpl.
  { split; [apply NoDup_nil_2 | intros v Hv; by apply elem_of_nil in Hv]. }
  destruct (r !! field) as [v|] eqn:Hv; [|apply IH].
  destruct (bool_decide_reflect (v ∈ seen)) as [Hin|Hnotin]; [apply IH|].
  simpl. rewrite Hv. destruct (IH (v :: seen)) as [Hnd Hfresh]. split.
  - apply NoDup_cons. split; [|done].
    intros Hin. apply (Hfresh v Hin). apply list_elem_of_here.
  - intros v' [->|Hin]%elem_of_cons; [done|].
    intros Hseen. apply (Hfresh v' Hin). by apply list_elem_of_further.
Qed.

(** X9: when every record that has an identifier also has the source's
    date field, the identifiers of the novel-record list are pairwise
    distinct: of several records with one identifier only the first is
    reported. *)
Theorem X9_engine_distinct_identifiers s blk lt records w t :
  db w = Some t →
  Forall (dated s) records →
  ∃ novel w',
    engine s blk lt records w = (Ok novel, w')
    ∧ NoDup (ids_of s novel).
Proof.
  intros Hdb Hdated.
  destruct (track_new_first_run s blk lt t records [] [] w t Hdb Hdated)
    as (w1 & t1 & Hrun & _).
  { intros v. rewrite bool_decide_eq_false_2; [by rewrite orb_false_r|].
    apply not_elem_of_nil. }
  eexists _, w1. split; [exact Hrun|].
  apply first_by_id_fresh.
Qed.

(** X10: under the same condition, after a run every record of the input
    that has an identifier is tracked, and so is everything that was
    tracked before. *)
Theorem X10_engine_tracks_every_identified_record s blk lt records w t :
  db w = Some t →
  Forall (dated s) records →
  ∃ t',
    db (engine s blk lt records w).2 = Some t'
    ∧ (∀ vid, tracked t (tag s) vid = true → tracked t' (tag s) vid = true)
    ∧ Forall (λ r, truthy (r !! id_field s) = true →
                   tracked t' (tag s) (default "" (r !! id_field s)) = true)
        records.
Proof.
  intros Hdb Hdated.
  destruct (track_new_first_run s blk lt t records [] [] w t Hdb Hdated)
    as (w1 & t1 & Hrun & Hdb1 & Hmono & Hall).
  { intros v. rewrite bool_decide_eq_false_2; [by rewrite orb_false_r|].
    apply not_elem_of_nil. }
  exists t1. unfold engine. rewrite Hrun. by repeat split.
Qed.

Lemma track_new_acc src idf datef blk lt records :
  ∀ acc0 acc w,
    track_new src idf datef blk lt records (acc0 ++ acc) w =
      match track_new src idf datef blk lt records acc w with
      | (Ok novel, w') => (Ok (acc0 ++ novel), w')
      | (Raise e, w') => (Raise e, w')
      end.
Proof.
  induction records as [|r rest IH]; intros acc0 acc w; [done|].
  rewrite !track_new_cons.
  destruct (r !! idf) as [vid|]; [|apply IH].
  destruct (truthy (Some vid)); [|apply IH].
  destruct (is_new_violation src vid w) as [[[]|e] w1]; [|apply IH|done].
  destruct (track_violation src vid blk lt (r !! datef) w1) as [[[]|e] w2];
    [|done].
  rewrite <- app_assoc. apply IH.
Qed.

(** X11: the engine on a sequence cut in two is the engine on the first
    part followed by the engine on the second part, on the world the
    first left; the novel-record lists are concatenated, and an exception
    in either part ends the run there. *)
Theorem X11_engine_composes s blk lt before after w :
  engine s blk lt (before ++ after) w =
    match engine s blk lt before w with
    | (Ok novel1, w1) =>
        match engine s blk lt after w1 with
        | (Ok novel2, w2) => (Ok (novel1 ++ novel2), w2)
        | (Raise e, w2) => (Raise e, w2)
        end
    | (Raise e, w1) => (Raise e, w1)
    end.
Proof.
  unfold engine. rewrite track_new_app.
  destruct (track_new _ _ _ _ _ before [] w) as [[novel1|e] w1]; [|done].
  rewrite <- (app_nil_r novel1) at 1. apply track_new_acc.
Qed.

(** ** Frames: what the parts of a cycle leave alone *)

Lemma keeps_ret {A X} (f : world → X) (a : A) : keeps f (mret a).
Proof. by intros w. Qed.

Lemma keeps_bind {A B X} (f : world → X) (m : M A) (k : A → M B) :
  keeps f m → (∀ a, keeps f (k a)) → keeps f (m ≫= k).
Proof.
  intros Hm Hk w. unfold mbind, M_bind. specialize (Hm w).
  destruct (m w) as [[a|e] w1]; simpl in *; [|done].
  by rewrite Hk.
Qed.

Lemma keeps_for_each {A X} (f : world → X) (xs : list A) (body : A → M unit) :
  (∀ x, keeps f (body x)) → keeps f (for_each xs body).
Proof.
  intros Hbody. induction xs as [|x xs IH]; simpl; [apply keeps_ret|].
  apply keeps_bind; [apply Hbody | intros _; apply IH].
Qed.

Lemma keeps_try_except {A X} (f : world → X) (body : M A) catches handler :
  keeps f body → (∀ e, keeps f (handler e)) →
  keeps f (try_except body catches handler).
Proof.
  intros Hbody Hhandler w. unfold try_except. specialize (Hbody w).
  destruct (body w) as [[a|e] w1]; simpl in *; [done|].
  destruct (catches e); [by rewrite Hhandler | done].
Qed.

Lemma keeps_is_new_violation {X} (f : world → X) src vid :
  keeps f (is_new_violation src vid).
Proof. intros w. by rewrite is_new_violation_pure. Qed.

Lemma keeps_db_make_request token ep p : keeps db (_make_request token ep p).
Proof.
  intros w. rewrite _make_request_run. cbn zeta.
  destruct (requests_get _ _) as [|e]; [done|].
  by destruct (isinstance_RequestException e).
Qed.

Lemma keeps_db_send_violation_report self vs blk lt :
  keeps db (send_violation_report self vs blk lt).
Proof.
  unfold send_violation_report. destruct (negb (any_values vs)); [done|].
  apply keeps_bind; [done | intros body].
  apply keeps_try_except; [|done].
  repeat first [ apply keeps_bind; [|intros ?] | apply keeps_for_each; intros ? | done ].
Qed.

Lemma smtp_calls_snoc_log tr l : smtp_calls (tr ++ [EvLog l]) = smtp_calls tr.
Proof. unfold smtp_calls. rewrite omap_app. simpl. apply app_nil_r. Qed.

Lemma smtp_calls_snoc_get tr url p timeout :
  smtp_calls (tr ++ [EvGet url p timeout]) = smtp_calls tr.
Proof. unfold smtp_calls. rewrite omap_app. simpl. apply app_nil_r. Qed.

Lemma keeps_trace_track_violation {X} (f : list event → X) src vid blk lt vdate :
  keeps (λ w, f (trace w)) (track_violation src vid blk lt vdate).
Proof.
  intros w. destruct (db w) as [t|] eqn:Hdb.
  - by rewrite (track_violation_run _ _ _ _ _ _ t Hdb).
  - by rewrite (track_violation_no_table _ _ _ _ _ _ Hdb).
Qed.

Lemma keeps_trace_track_new {X} (f : list event → X) src idf datef blk lt records :
  ∀ acc, keeps (λ w, f (trace w)) (track_new src idf datef blk lt records acc).
Proof.
  induction records as [|r rest IH]; intros acc w; [done|].
  rewrite track_new_cons.
  destruct (r !! idf) as [vid|]; [|apply IH].
  destruct (truthy (Some vid)); [|apply IH].
  pose proof (is_new_violation_pure src vid w) as Hpure.
  destruct (is_new_violation src vid w) as [[[]|e] w1]; simpl in Hpure; subst w1;
    [|apply IH|done].
  pose proof (keeps_trace_track_violation f src vid blk lt (r !! datef) w) as Htr.
  destruct (track_violation src vid blk lt (r !! datef) w) as [[[]|e] w2];
    simpl in Htr; [|done].
  by rewrite IH.
Qed.

Lemma keeps_smtp_calls_stage s self yesterday :
  keeps (λ w, smtp_calls (trace w)) (stage s self yesterday).
Proof.
  unfold stage, engine. apply keeps_bind.
  - rewrite adapter_request. intros w. rewrite _make_request_run. cbn zeta.
    destruct (requests_get _ _) as [|e]; [|destruct (isinstance_RequestException e)];
      simpl; by rewrite ?smtp_calls_snoc_log, smtp_calls_snoc_get.
  - intros records. apply (keeps_trace_track_new smtp_calls).
Qed.

Lemma keeps_smtp_calls_collect self :
  keeps (λ w, smtp_calls (trace w)) (collect_by_stages self).
Proof.
  unfold collect_by_stages.
  apply keeps_bind; [intros w; simpl; apply smtp_calls_snoc_log | intros _].
  apply keeps_bind; [done | intros now]. cbn zeta.
  do 4 (apply keeps_bind; [apply keeps_smtp_calls_stage | intros ?]).
  done.
Qed.

(** ** The store over a whole cycle *)

Lemma append_only_keeps_db {A} (m : M A) : keeps db m → append_only m.
Proof. intros Hm w t Hdb. exists t. rewrite Hm. by repeat split. Qed.

Lemma append_only_bind {A B} (m : M A) (k : A → M B) :
  append_only m → (∀ a, append_only (k a)) → append_only (m ≫= k).
Proof.
  intros Hm Hk w t Hdb. unfold mbind, M_bind.
  destruct (Hm w t Hdb) as (t1 & Hdb1 & Hpre1 & Huniq1).
  destruct (m w) as [[a|e] w1]; simpl in *; [|by exists t1].
  destruct (Hk a w1 t1 Hdb1) as (t2 & Hdb2 & Hpre2 & Huniq2).
  exists t2. split; [done|]. split; [by etrans | auto].
Qed.

Lemma insert_rows_prefix src vid blk lt vdate cdate t :
  rows t `prefix_of` rows (Sql.insert_or_ignore src vid blk lt vdate cdate t).
Proof.
  unfold Sql.insert_or_ignore.
  destruct src as [src|], vid as [vid|], blk, lt, vdate, cdate; simpl; try done.
  destruct (existsb (key_matches src vid) (rows t)); simpl; [done|].
  by apply prefix_app_r.
Qed.

Lemma append_only_track_violation src vid blk lt vdate :
  append_only (track_violation src vid blk lt vdate).
Proof.
  intros w t Hdb. rewrite (track_violation_run _ _ _ _ _ _ t Hdb).
  eexists. split; [done|]. split; [apply insert_rows_prefix|].
  apply insert_unique_keys.
Qed.

Lemma append_only_track_new src idf datef blk lt records :
  ∀ acc, append_only (track_new src idf datef blk lt records acc).
Proof.
  induction records as [|r rest IH]; intros acc;
    [by apply append_only_keeps_db|].
  intros w t Hdb. rewrite track_new_cons.
  destruct (r !! idf) as [vid|]; [|by apply IH].
  destruct (truthy (Some vid)); [|by apply IH].
  rewrite (is_new_violation_run _ _ _ t Hdb).
  destruct (negb (tracked t src vid)); [|by apply IH].
  apply (append_only_bind (track_violation src vid blk lt (r !! datef))
           (λ _, track_new src idf datef blk lt rest (acc ++ [r])));
    [apply append_only_track_violation | intros _; apply IH | done].
Qed.

Lemma append_only_stage s self yesterday : append_only (stage s self yesterday).
Proof.
  unfold stage, engine. apply append_only_bind.
  - rewrite adapter_request. apply append_only_keeps_db, keeps_db_make_request.
  - intros records. apply append_only_track_new.
Qed.

Lemma append_only_collect self : append_only (collect_by_stages self).
Proof.
  unfold collect_by_stages.
  apply append_only_bind; [by apply append_only_keeps_db | intros _].
  apply append_only_bind; [by apply append_only_keeps_db | intros now].
  cbn zeta.
  do 4 (apply append_only_bind; [apply append_only_stage | intros ?]).
  by apply append_only_keeps_db.
Qed.

(** X12: a whole cycle is append-only.  Whatever the API and the SMTP
    server answer, and whether [check_violations] returns or raises, the
    table is still there afterwards, the rows it had are still there, in
    place and unchanged, and with one row per pair before there is one
    row per pair after. *)
Theorem X12_cycle_append_only self w t :
  db w = Some t →
  ∃ t', db (check_violations self w).2 = Some t'
        ∧ rows t `prefix_of` rows t'
        ∧ (unique_keys t → unique_keys t').
Proof.
  revert w t. change (append_only (check_violations self)).
  unfold check_violations. apply append_only_bind.
  - intros w t Hdb. rewrite collect_by_stages_eq.
    by apply append_only_collect.
  - intros new_violations. cbn zeta.
    apply append_only_bind; [by apply append_only_keeps_db | intros _].
    apply append_only_keeps_db, keeps_db_send_violation_report.
Qed.

(** ** The adapters and the cycle *)

Lemma adapter_run s token blk lt since_date w :
  adapter s token blk lt since_date w =
    let p := with_token token (request_params s blk lt since_date) in
    let w1 := emit (EvGet (url_of s) p 30) w in
    match requests_get (url_of s) p with
    | Response json => (Ok json, w1)
    | Failure e =>
        if isinstance_RequestException e
        then (Ok [], emit (EvLog (Error_fetching (endpoint s) e)) w1)
        else (Raise e, w1)
    end.
Proof. by rewrite adapter_request, _make_request_run. Qed.


(** X14: the application token.  The request carries [$$app_token] when
    the fetcher was given a non-empty token, with that token as value;
    with no token or the empty string the parameters are the three the
    adapter built and nothing else. *)
Theorem X14_app_token s token blk lt since_date w :
  ∃ p tail,
    trace (adapter s token blk lt since_date w).2
    = trace w ++ EvGet (url_of s) p 30 :: tail
    ∧ p !! "$$app_token"
      = match token with
        | Some tok => if String.eqb tok "" then None else Some (PStr tok)
        | None => None
        end
    ∧ (truthy token = false → p = request_params s blk lt since_date).
Proof.
  rewrite adapter_run. cbn zeta.
  exists (with_token token (request_params s blk lt since_date)).
  assert (Htok : with_token token (request_params s blk lt since_date)
                   !! "$$app_token"
                 = match token with
                   | Some tok => if String.eqb tok "" then None else Some (PStr tok)
                   | None => None
                   end).
  { unfold with_token, request_params. destruct token as [tok|]; simpl.
    - destruct (String.eqb tok ""); simpl; by simplify_map_eq.
    - by simplify_map_eq. }
  assert (Hnone : truthy token = false →
                  with_token token (request_params s blk lt since_date)
                  = request_params s blk lt since_date).
  { unfold with_token. destruct token as [tok|]; [|done]. by intros ->. }
  destruct (requests_get _ _) as [json|e];
    [exists [] | destruct (isinstance_RequestException e);
                 [exists [EvLog (Error_fetching (endpoint s) e)] | exists []]];
    simpl; (split; [by rewrite <- ?app_assoc | by split]).
Qed.

Lemma always_raises_bind_l {A B} (m : M A) (k : A → M B) :
  always_raises m → always_raises (m ≫= k).
Proof.
  intros Hm w. unfold mbind, M_bind. destruct (Hm w) as [e He].
  destruct (m w) as [[a|e'] w1]; simpl in *; [done | by exists e'].
Qed.

Lemma always_raises_bind_r {A B} (m : M A) (k : A → M B) :
  (∀ a, always_raises (k a)) → always_raises (m ≫= k).
Proof.
  intros Hk w. unfold mbind, M_bind.
  destruct (m w) as [[a|e] w1]; [apply Hk | by exists e].
Qed.

Lemma stage_always_raises s e self yesterday :
  (∀ q, requests_get (url_of s) q = Failure e) →
  isinstance_RequestException e = false →
  always_raises (stage s self yesterday).
Proof.
  intros Hfail Hother. unfold stage. apply always_raises_bind_l.
  intros w. rewrite adapter_run. cbn zeta.
  rewrite Hfail, Hother. by exists e.
Qed.

(** X16: a fetch that fails with something else than a
    [RequestException] ends the cycle: [check_violations] raises, and no
    SMTP call is made, whatever the earlier sources returned. *)
Theorem X16_cycle_aborts_on_other_failure s e self w :
  (∀ q, requests_get (url_of s) q = Failure e) →
  isinstance_RequestException e = false →
  ∃ e', (check_violations self w).1 = Raise e'
        ∧ smtp_calls (trace (check_violations self w).2)
          = smtp_calls (trace w).
Proof.
  intros Hfail Hother.
  assert (Hcollect : always_raises (collect_by_stages self)).
  { unfold collect_by_stages.
    apply always_raises_bind_r; intros _.
    apply always_raises_bind_r; intros now. cbn zeta.
    pose proof (λ y, stage_always_raises s e self y Hfail Hother) as Hs.
    destruct s;
      repeat first [ apply always_raises_bind_l; apply Hs
                   | apply always_raises_bind_r; intros ? ]. }
  destruct (Hcollect w) as [e' He'].
  pose proof (keeps_smtp_calls_collect self w) as Hsmtp.
  unfold check_violations, mbind, M_bind.
  rewrite collect_by_stages_eq.
  destruct (collect_by_stages self w) as [[nv|e''] w1]; simpl in *; [done|].
  by exists e''.
Qed.

Lemma bind_Ok_inv {A B} (m : M A) (k : A → M B) w b w' :
  (m ≫= k) w = (Ok b, w') →
  ∃ a w1, m w = (Ok a, w1) ∧ k a w1 = (Ok b, w').
Proof.
  unfold mbind, M_bind. destruct (m w) as [[a|e] w1]; [|done].
  intros H. by exists a, w1.
Qed.

Lemma calls_snoc_log tr l : calls (tr ++ [EvLog l]) = calls tr.
Proof. unfold calls. rewrite List.filter_app. simpl. apply app_nil_r. Qed.

Lemma calls_snoc_get tr url p timeout :
  calls (tr ++ [EvGet url p timeout]) = calls tr ++ [EvGet url p timeout].
Proof. unfold calls. by rewrite List.filter_app. Qed.

Lemma stage_calls s self yesterday w novel w' :
  stage s self yesterday w = (Ok novel, w') →
  calls (trace w')
  = calls (trace w)
    ++ [EvGet (url_of s)
          (with_token (api_token self)
             (request_params s (block self) (lot self) yesterday)) 30].
Proof.
  unfold stage. intros (records & w1 & Hfetch & Hrun)%bind_Ok_inv.
  pose proof (keeps_trace_track_new calls (tag s) (id_field s) (date_field s)
                (block self) (lot self) records [] w1) as Hkeep.
  unfold engine in Hrun. rewrite Hrun in Hkeep. simpl in Hkeep. rewrite Hkeep.
  rewrite adapter_run in Hfetch. cbn zeta in Hfetch.
  destruct (requests_get _ _) as [json|e].
  - injection Hfetch as _ <-. simpl. apply calls_snoc_get.
  - destruct (isinstance_RequestException e); [|done].
    injection Hfetch as _ <-. simpl. rewrite calls_snoc_log. apply calls_snoc_get.
Qed.

(** X17: a cycle that gets through its four stages has made exactly four
    calls to the outside, one GET per source in the order 311, HPD, OATH,
    DOB, all with the same cutoff date: the day before the one clock
    reading taken at the start of the cycle. *)
Theorem X17_cycle_requests self w new_violations w1 :
  collect_new_violations self w = (Ok new_violations, w1) →
  calls (trace w1)
  = calls (trace w)
    ++ map (λ s, EvGet (url_of s)
                   (with_token (api_token self)
                      (request_params s (block self) (lot self)
                         (strftime_Ymd (minus_one_day (clock (ticks w))))))
                   30)
        all_sources.
Proof.
  rewrite collect_by_stages_eq. unfold collect_by_stages.
  intros ([] & wa & Hlog & H)%bind_Ok_inv.
  apply bind_Ok_inv in H as (now & wb & Hnow & H). cbn zeta in H.
  apply bind_Ok_inv in H as (n1 & wc & H1 & H).
  apply bind_Ok_inv in H as (n2 & wd & H2 & H).
  apply bind_Ok_inv in H as (n3 & we & H3 & H).
  apply bind_Ok_inv in H as (n4 & wf & H4 & H).
  injection H as _ <-.
  apply stage_calls in H1, H2, H3, H4.
  injection Hlog as <-. injection Hnow as <- <-.
  rewrite H4, H3, H2, H1. simpl. rewrite calls_snoc_log.
  by rewrite <- !app_assoc.
Qed.

(** ** Two cycles in a row *)

Lemma tracked_prefix t t' src vid :
  rows t `prefix_of` rows t' →
  tracked t src vid = true → tracked t' src vid = true.
Proof.
  intros [added Hrows] Htr. rewrite (tracked_app_rows t t' added _ _ Hrows).
  by rewrite Htr.
Qed.

Lemma identified_tracked_prefix s t t' records :
  rows t `prefix_of` rows t' →
  identified_tracked s t records → identified_tracked s t' records.
Proof.
  intros Hpre Hall. unfold identified_tracked.
  eapply Forall_impl; [exact Hall|].
  intros r Hr Hid. by eapply tracked_prefix, Hr.
Qed.

(** The first pass of a stage over dated records tracks them all. *)
Lemma stage_first_pass s self yesterday records w t :
  (∀ q, requests_get (url_of s) q = Response records) →
  Forall (dated s) records →
  db w = Some t →
  ∃ novel w' t',
    stage s self yesterday w = (Ok novel, w')
    ∧ db w' = Some t'
    ∧ rows t `prefix_of` rows t'
    ∧ identified_tracked s t' records.
Proof.
  intros Hresp Hdated Hdb. unfold stage, mbind, M_bind.
  rewrite adapter_run. cbn zeta. rewrite Hresp.
  set (w1 := emit _ w).
  destruct (track_new_first_run s (block self) (lot self) t records [] [] w1 t
              Hdb Hdated) as (w' & t' & Hrun & Hdb' & _ & Hall).
  { intros v. rewrite bool_decide_eq_false_2; [by rewrite orb_false_r|].
    apply not_elem_of_nil. }
  destruct (append_only_track_new (tag s) (id_field s) (date_field s)
              (block self) (lot self) records [] w1 t Hdb)
    as (t'' & Hdb'' & Hpre & _).
  unfold engine. rewrite Hrun in Hdb'' |- *. simpl in Hdb''.
  eexists _, w', t'. repeat split; [done | | done].
  rewrite Hdb' in Hdb''. by injection Hdb'' as <-.
Qed.

(** A later pass over the same records reports nothing and stores
    nothing. *)
Lemma stage_later_pass s self yesterday records w t :
  (∀ q, requests_get (url_of s) q = Response records) →
  db w = Some t →
  identified_tracked s t records →
  ∃ w', stage s self yesterday w = (Ok [], w') ∧ db w' = Some t.
Proof.
  intros Hresp Hdb Hall. unfold stage, mbind, M_bind.
  rewrite adapter_run. cbn zeta. rewrite Hresp.
  set (w1 := emit _ w). unfold engine.
  rewrite (track_new_all_tracked _ _ _ _ _ _ [] w1 t Hdb Hall).
  by exists w1.
Qed.

Lemma collect_first_cycle self (answer : source → list raw_record) w t :
  (∀ s q, requests_get (url_of s) q = Response (answer s)) →
  (∀ s, Forall (dated s) (answer s)) →
  db w = Some t →
  ∃ new_violations w' t',
    collect_by_stages self w = (Ok new_violations, w')
    ∧ db w' = Some t'
    ∧ rows t `prefix_of` rows t'
    ∧ ∀ s, identified_tracked s t' (answer s).
Proof.
  intros Hresp Hdated Hdb. unfold collect_by_stages, mbind, M_bind. simpl.
  set (y := strftime_Ymd _). set (w0 := {| db := db w |}).
  destruct (stage_first_pass Src311 self y _ w0 t (Hresp Src311) (Hdated Src311) Hdb)
    as (n1 & w1 & t1 & -> & Hdb1 & Hp1 & Ht1).
  destruct (stage_first_pass SrcHPD self y _ w1 t1 (Hresp SrcHPD) (Hdated SrcHPD) Hdb1)
    as (n2 & w2 & t2 & -> & Hdb2 & Hp2 & Ht2).
  destruct (stage_first_pass SrcOATH self y _ w2 t2 (Hresp SrcOATH) (Hdated SrcOATH) Hdb2)
    as (n3 & w3 & t3 & -> & Hdb3 & Hp3 & Ht3).
  destruct (stage_first_pass SrcDOB self y _ w3 t3 (Hresp SrcDOB) (Hdated SrcDOB) Hdb3)
    as (n4 & w4 & t4 & -> & Hdb4 & Hp4 & Ht4).
  eexists _, w4, t4. split; [done|]. split; [done|].
  split; [by repeat (etrans; [eassumption|])|].
  intros [].
  - apply (identified_tracked_prefix _ t1); [|done]. by repeat (etrans; [eassumption|]).
  - apply (identified_tracked_prefix _ t2); [|done]. by etrans.
  - by apply (identified_tracked_prefix _ t3).
  - done.
Qed.

Lemma collect_later_cycle self (answer : source → list raw_record) w t :
  (∀ s q, requests_get (url_of s) q = Response (answer s)) →
  db w = Some t →
  (∀ s, identified_tracked s t (answer s)) →
  ∃ w', collect_by_stages self w = (Ok nothing_new, w') ∧ db w' = Some t.
Proof.
  intros Hresp Hdb Hall. unfold collect_by_stages, mbind, M_bind. simpl.
  set (y := strftime_Ymd _). set (w0 := {| db := db w |}).
  destruct (stage_later_pass Src311 self y _ w0 t (Hresp Src311) Hdb (Hall Src311))
    as (w1 & -> & Hdb1).
  destruct (stage_later_pass SrcHPD self y _ w1 t (Hresp SrcHPD) Hdb1 (Hall SrcHPD))
    as (w2 & -> & Hdb2).
  destruct (stage_later_pass SrcOATH self y _ w2 t (Hresp SrcOATH) Hdb2 (Hall SrcOATH))
    as (w3 & -> & Hdb3).
  destruct (stage_later_pass SrcDOB self y _ w3 t (Hresp SrcDOB) Hdb3 (Hall SrcDOB))
    as (w4 & -> & Hdb4).
  by exists w4.
Qed.

(** X18: nothing is reported twice.  When the API answers each source
    with the same records in two cycles in a row, every record that has
    an identifier also having its date, and the first cycle returns, the
    second cycle finds nothing new for any source, stores nothing and
    makes no SMTP call. *)
Theorem X18_second_cycle_reports_nothing self
    (answer : source → list raw_record) w t w1 :
  (∀ s q, requests_get (url_of s) q = Response (answer s)) →
  (∀ s, Forall (dated s) (answer s)) →
  db w = Some t →
  check_violations self w = (Ok tt, w1) →
  ∃ wc w2,
    collect_new_violations self w1 = (Ok nothing_new, wc)
    ∧ check_violations self w1 = (Ok tt, w2)
    ∧ db w2 = db w1
    ∧ smtp_calls (trace w2) = smtp_calls (trace w1).
Proof.
  intros Hresp Hdated Hdb Hfirst.
  destruct (collect_first_cycle self answer w t Hresp Hdated Hdb)
    as (nv & wa & ta & Hcollect & Hdba & _ & Hall).
  assert (Hdb1 : db w1 = Some ta).
  { unfold check_violations in Hfirst.
    apply bind_Ok_inv in Hfirst as (nv' & wa' & Hc & Hrest).
    rewrite collect_by_stages_eq, Hcollect in Hc. injection Hc as <- <-.
    cbn zeta in Hrest. apply bind_Ok_inv in Hrest as ([] & wb & Hlog & Hsend).
    injection Hlog as <-.
    pose proof (keeps_db_send_violation_report (notifier self) nv
                  (block self) (lot self)
                  (emit (EvLog (Info_found
                     (sum_list (map (λ '(_, viol_list), length viol_list) nv))))
                     wa)) as Hkeep.
    rewrite Hsend in Hkeep. simpl in Hkeep. by rewrite Hkeep. }
  destruct (collect_later_cycle self answer w1 ta Hresp Hdb1 Hall)
    as (wc & Hsecond & Hdbc).
  pose proof (keeps_smtp_calls_collect self w1) as Hsmtp.
  rewrite Hsecond in Hsmtp. simpl in Hsmtp.
  exists wc. eexists. split; [by rewrite collect_by_stages_eq|].
  unfold check_violations, mbind, M_bind.
  rewrite collect_by_stages_eq, Hsecond. simpl.
  rewrite send_violation_report_nothing_new by (repeat constructor).
  split; [done|]. simpl. split; [congruence|].
  by rewrite !smtp_calls_snoc_log.
Qed.

(** ** A cycle that returns *)

Lemma stage_returns s self yesterday w t :
  (∀ url q e, requests_get url q = Failure e →
              isinstance_RequestException e = true) →
  db w = Some t →
  ∃ novel w' t', stage s self yesterday w = (Ok novel, w') ∧ db w' = Some t'.
Proof.
  intros Htame Hdb. unfold stage, mbind, M_bind. rewrite adapter_run. cbn zeta.
  destruct (requests_get _ _) as [json|e] eqn:Hget.
  - destruct (track_new_report s (block self) (lot self) json []
                (emit (EvGet (url_of s)
                   (with_token (api_token self)
                      (request_params s (block self) (lot self) yesterday)) 30) w)
                t Hdb) as (novel & t' & added & Hrun & _).
    unfold engine. rewrite Hrun. by eexists _, _, t'.
  - rewrite (Htame _ _ _ Hget). by eexists [], _, t.
Qed.

(** X15: a cycle returns.  On a database that has the table, when the
    API fails with [RequestException]s only and the SMTP server with
    [Exception]s only, [check_violations] returns normally, whatever the
    records and whichever calls fail. *)
Theorem X15_cycle_returns self w t :
  (∀ url q e, requests_get url q = Failure e →
              isinstance_RequestException e = true) →
  (∀ c e, smtp c = Some e → isinstance_Exception e = true) →
  db w = Some t →
  ∃ w', check_violations self w = (Ok tt, w').
Proof.
  intros Htame Hexn Hdb.
  assert (Hcollect : ∃ nv w1, collect_by_stages self w = (Ok nv, w1)).
  { unfold collect_by_stages, mbind, M_bind. simpl.
    set (y := strftime_Ymd _). set (w0 := {| db := db w |}).
    destruct (stage_returns Src311 self y w0 t Htame Hdb) as (n1 & w1 & t1 & -> & Hdb1).
    destruct (stage_returns SrcHPD self y w1 t1 Htame Hdb1) as (n2 & w2 & t2 & -> & Hdb2).
    destruct (stage_returns SrcOATH self y w2 t2 Htame Hdb2) as (n3 & w3 & t3 & -> & Hdb3).
    destruct (stage_returns SrcDOB self y w3 t3 Htame Hdb3) as (n4 & w4 & t4 & -> & Hdb4).
    by eexists _, _. }
  destruct Hcollect as (nv & w1 & Hcollect).
  unfold check_violations, mbind, M_bind.
  rewrite collect_by_stages_eq, Hcollect. simpl.
  destruct (send_violation_report_keeps_store (notifier self) nv (block self)
              (lot self)
              (emit (EvLog (Info_found
                 (sum_list (map (λ '(_, viol_list), length viol_list) nv)))) w1)
              Hexn) as (w2 & Hsend & _).
  by exists w2.
Qed.

(** ** The SMTP session of a report *)

Lemma emit_smtp_nil w : emit_smtp [] w = w.
Proof. unfold emit_smtp. simpl. rewrite app_nil_r. by destruct w. Qed.

Lemma emit_smtp_cons c made w :
  emit_smtp (c :: made) w = emit_smtp made (emit (EvSmtp c) w).
Proof. unfold emit_smtp, emit. simpl. by rewrite <- app_assoc. Qed.

Lemma smtp_do_then {A} c (k : M A) w :
  (smtp_do c;; k) w =
    match smtp c with
    | None => k (emit (EvSmtp c) w)
    | Some e => (Raise e, emit (EvSmtp c) w)
    end.
Proof. unfold mbind, M_bind, smtp_do. by destruct (smtp c). Qed.

(** Running planned calls one after the other, then a continuation. *)
Lemma sendmails_then {A B} (g : B → smtp_call) (tos : list B) (k : M A) :
  ∀ w,
    (for_each tos (λ to_email, smtp_do (g to_email));; k) w =
      let '(made, failure) := until_failure smtp (map g tos) in
      match failure with
      | None => k (emit_smtp made w)
      | Some e => (Raise e, emit_smtp made w)
      end.
Proof.
  induction tos as [|x tos IH]; intros w.
  - simpl. by rewrite emit_smtp_nil.
  - change (for_each (x :: tos) (λ to_email, smtp_do (g to_email)))
      with (smtp_do (g x);;
            for_each tos (λ to_email, smtp_do (g to_email))).
    rewrite bind_assoc_run, smtp_do_then. simpl.
    destruct (smtp (g x)) as [e|].
    + by rewrite emit_smtp_cons, emit_smtp_nil.
    + rewrite IH. destruct (until_failure smtp (map g tos)) as [made [e|]];
        by rewrite emit_smtp_cons.
Qed.

Lemma until_failure_app plan1 plan2 :
  until_failure smtp (plan1 ++ plan2) =
    let '(made1, failure1) := until_failure smtp plan1 in
    match failure1 with
    | Some e => (made1, Some e)
    | None => let '(made2, failure2) := until_failure smtp plan2 in
              (made1 ++ made2, failure2)
    end.
Proof.
  induction plan1 as [|c plan1 IH]; simpl.
  - by destruct (until_failure smtp plan2).
  - destruct (smtp c); [done|]. rewrite IH.
    destruct (until_failure smtp plan1) as [made1 [e|]]; [done|].
    by destruct (until_failure smtp plan2).
Qed.

Lemma emit_smtp_app made1 made2 w :
  emit_smtp (made1 ++ made2) w = emit_smtp made2 (emit_smtp made1 w).
Proof. unfold emit_smtp. simpl. by rewrite map_app, app_assoc. Qed.

Lemma send_violation_report_run self vs blk lt w :
  any_values vs = true →
  send_violation_report self vs blk lt w =
    let msg := report_message self vs blk lt (clock (ticks w)) in
    let '(made, failure) := until_failure smtp (planned_calls self msg) in
    let w1 := emit_smtp made
                {| db := db w; ticks := S (ticks w); trace := trace w |} in
    match failure with
    | None =>
        (Ok tt, emit (EvLog (Info_report_sent (length (to_emails self)))) w1)
    | Some e =>
        if isinstance_Exception e
        then (Ok tt, emit (EvLog (Error_send_email e)) w1)
        else (Raise e, w1)
    end.
Proof.
  intros Hany. unfold send_violation_report. rewrite Hany. simpl.
  unfold mbind at 1, M_bind at 1. simpl.
  set (w0 := {| db := db w; ticks := S (ticks w); trace := trace w |}).
  fold (report_message self vs blk lt (clock (ticks w))).
  set (msg := report_message self vs blk lt (clock (ticks w))).
  unfold try_except, planned_calls.
  rewrite smtp_do_then.
  change ([SMTP_connect (smtp_server self) (smtp_port self); SMTP_starttls;
           SMTP_login (from_email self) (from_password self)] ++ ?l)
    with (SMTP_connect (smtp_server self) (smtp_port self)
          :: SMTP_starttls
          :: SMTP_login (from_email self) (from_password self) :: l).
  simpl until_failure.
  destruct (smtp (SMTP_connect _ _)) as [e|];
    [by rewrite emit_smtp_cons, emit_smtp_nil; destruct (isinstance_Exception e)|].
  rewrite smtp_do_then.
  destruct (smtp SMTP_starttls) as [e|];
    [by rewrite !emit_smtp_cons, emit_smtp_nil; destruct (isinstance_Exception e)|].
  rewrite smtp_do_then.
  destruct (smtp (SMTP_login _ _)) as [e|];
    [by rewrite !emit_smtp_cons, emit_smtp_nil; destruct (isinstance_Exception e)|].
  rewrite sendmails_then, until_failure_app.
  destruct (until_failure smtp (map _ (to_emails self))) as [made [e|]].
  - rewrite !emit_smtp_cons. by destruct (isinstance_Exception e).
  - rewrite smtp_do_then. simpl.
    destruct (smtp SMTP_quit) as [e|];
      rewrite !emit_smtp_cons, emit_smtp_app, emit_smtp_cons, emit_smtp_nil;
      [by destruct (isinstance_Exception e) | done].
Qed.


(** X21: with an empty recipient list (what [manual_run.py --no-email]
    sets) a report is still prepared: when there is a novel record and
    the server accepts every call, the notifier connects, starts TLS,
    logs in and quits without any [sendmail], and logs a report sent to 0
    recipients. *)
Theorem X21_no_recipients_still_logs_in self vs blk lt w :
  to_emails self = [] →
  any_values vs = true →
  (∀ c, smtp c = None) →
  send_violation_report self vs blk lt w
  = (Ok tt,
     {| db := db w; ticks := S (ticks w);
        trace := trace w
                 ++ [ EvSmtp (SMTP_connect (smtp_server self) (smtp_port self));
                      EvSmtp SMTP_starttls;
                      EvSmtp (SMTP_login (from_email self) (from_password self));
                      EvSmtp SMTP_quit;
                      EvLog (Info_report_sent 0) ] |}).
Proof.
  intros Hto Hany Hsmtp. rewrite send_violation_report_run by done.
  cbn zeta. unfold planned_calls. rewrite Hto. simpl.
  rewrite !Hsmtp. unfold emit, emit_smtp. simpl.
  by rewrite <- app_assoc.
Qed.



End Monitor.

(** ** Isolation of a failed source *)

Section Isolation.

Context {datetime : Type}.
Context (isoformat strftime_Ymd : datetime → string).
Context (minus_one_day : datetime → datetime).
Context (clock : nat → datetime).

Lemma same_but_log_refl w : same_but_log w w.
Proof. done. Qed.

Lemma calls_emit_call tr e : is_call e = true → calls (tr ++ [e]) = calls tr ++ [e].
Proof. intros He. unfold calls. rewrite List.filter_app. simpl. by rewrite He. Qed.

Lemma calls_emit_log tr l : calls (tr ++ [EvLog l]) = calls tr.
Proof. unfold calls. rewrite List.filter_app. simpl. apply app_nil_r. Qed.

Lemma sim_ret {A} (a : A) : sim (mret a) (mret a).
Proof. by intros w w' H. Qed.

Lemma sim_bind {A B} (m m' : M A) (f f' : A → M B) :
  sim m m' → (∀ a, sim (f a) (f' a)) → sim (m ≫= f) (m' ≫= f').
Proof.
  intros Hm Hf w w' Hw. unfold mbind, M_bind.
  destruct (Hm w w' Hw) as [Hres Hw1].
  destruct (m w) as [[a|e] w1], (m' w') as [[a'|e'] w1']; simpl in *;
    try discriminate.
  - injection Hres as <-. by apply Hf.
  - by injection Hres as <-.
Qed.

Lemma sim_log l l' : sim (log l) (log l').
Proof.
  intros w w' (Hdb & Hticks & Hcalls). split; [done|].
  repeat split; simpl; [done..|]. by rewrite !calls_emit_log.
Qed.

Lemma sim_log_skip l : sim (log l) (mret tt).
Proof.
  intros w w' (Hdb & Hticks & Hcalls). split; [done|].
  repeat split; simpl; [done..|]. by rewrite calls_emit_log.
Qed.

Lemma sim_datetime_now : sim (datetime_now clock) (datetime_now clock).
Proof.
  intros w w' (Hdb & Hticks & Hcalls). unfold datetime_now. simpl.
  rewrite Hticks. by repeat split.
Qed.

Lemma sim_is_new_violation src vid :
  sim (is_new_violation src vid) (is_new_violation src vid).
Proof.
  intros w w' Hw. pose proof Hw as (Hdb & _ & _).
  destruct (db w) as [t|] eqn:Ht.
  - rewrite (is_new_violation_run _ _ _ t Ht).
    by rewrite (is_new_violation_run _ _ w' t).
  - rewrite (is_new_violation_no_table _ _ _ Ht).
    by rewrite (is_new_violation_no_table _ _ w').
Qed.

Lemma sim_track_violation src vid blk lt vdate :
  sim (track_violation isoformat clock src vid blk lt vdate)
      (track_violation isoformat clock src vid blk lt vdate).
Proof.
  intros w w' (Hdb & Hticks & Hcalls).
  destruct (db w) as [t|] eqn:Ht.
  - rewrite (track_violation_run _ _ _ _ _ _ _ _ t Ht).
    rewrite (track_violation_run _ _ _ _ _ _ _ w' t) by done.
    simpl. rewrite Hticks. by repeat split.
  - rewrite (track_violation_no_table _ _ _ _ _ _ _ _ Ht).
    rewrite (track_violation_no_table _ _ _ _ _ _ _ w') by done.
    simpl. rewrite Hticks. by repeat split.
Qed.

Lemma sim_track_new src idf datef blk lt records :
  ∀ acc, sim (track_new isoformat clock src idf datef blk lt records acc)
             (track_new isoformat clock src idf datef blk lt records acc).
Proof.
  induction records as [|r rest IH]; intros acc; [apply sim_ret|].
  simpl. destruct (r !! idf) as [vid|]; [|apply IH].
  destruct (truthy (Some vid)); [|apply IH].
  apply sim_bind; [apply sim_is_new_violation|].
  intros [|]; [|apply IH].
  apply sim_bind; [apply sim_track_violation | intros _; apply IH].
Qed.

Lemma url_of_inj s s' : String.eqb (url_of s') (url_of s) = true → s' = s.
Proof. by destruct s, s'. Qed.

Lemma sim_make_request_same net net' token ep p :
  (∀ q, net (base_url +:+ "/" +:+ ep +:+ ".json") q
        = net' (base_url +:+ "/" +:+ ep +:+ ".json") q) →
  sim (_make_request net token ep p) (_make_request net' token ep p).
Proof.
  intros Hsame w w' (Hdb & Hticks & Hcalls).
  rewrite !_make_request_run. cbn zeta. rewrite <- Hsame.
  destruct (net _ _) as [json|e]; [|destruct (isinstance_RequestException e)];
    simpl; (split; [done|]); repeat split; simpl; try done;
    rewrite ?calls_emit_log, !calls_emit_call by done; by rewrite Hcalls.
Qed.

Lemma sim_make_request_failed net net' token ep p :
  (∀ q, ∃ e, net (base_url +:+ "/" +:+ ep +:+ ".json") q = Failure e
             ∧ isinstance_RequestException e = true) →
  (∀ q, net' (base_url +:+ "/" +:+ ep +:+ ".json") q = Response []) →
  sim (_make_request net token ep p) (_make_request net' token ep p).
Proof.
  intros Hfail Hempty w w' (Hdb & Hticks & Hcalls).
  rewrite !_make_request_run. cbn zeta. rewrite Hempty.
  destruct (Hfail (with_token token p)) as (e & -> & ->). simpl.
  split; [done|]. repeat split; simpl; try done.
  rewrite calls_emit_log, !calls_emit_call by done. by rewrite Hcalls.
Qed.

Lemma sim_stage net s s' self yesterday :
  (∀ q, ∃ e, net (url_of s) q = Failure e
             ∧ isinstance_RequestException e = true) →
  sim (stage isoformat clock net s' self yesterday)
      (stage isoformat clock (answering_empty net s) s' self yesterday).
Proof.
  intros Hfail. unfold stage, engine.
  apply sim_bind; [|intros records; apply sim_track_new].
  rewrite !adapter_request.
  destruct (String.eqb (url_of s') (url_of s)) eqn:Hurl.
  - apply url_of_inj in Hurl as ->.
    apply sim_make_request_failed; [exact Hfail|].
    intros q. unfold answering_empty. fold (url_of s).
    by rewrite String.eqb_refl.
  - apply sim_make_request_same. intros q.
    unfold answering_empty. fold (url_of s'). by rewrite Hurl.
Qed.

Lemma sim_collect net s self :
  (∀ q, ∃ e, net (url_of s) q = Failure e
             ∧ isinstance_RequestException e = true) →
  sim (collect_by_stages isoformat strftime_Ymd minus_one_day clock net self)
      (collect_by_stages isoformat strftime_Ymd minus_one_day clock
         (answering_empty net s) self).
Proof.
  intros Hfail. unfold collect_by_stages.
  apply sim_bind; [apply sim_log | intros _].
  apply sim_bind; [apply sim_datetime_now | intros now]. cbn zeta.
  do 4 (apply sim_bind; [by apply sim_stage | intros ?]).
  apply sim_ret.
Qed.

(** *** No retry: GET requests are counted *)

Lemma get_count_app url tr tr' :
  get_count url (tr ++ tr') = get_count url tr + get_count url tr'.
Proof. unfold get_count. by rewrite List.filter_app, length_app. Qed.

Lemma at_most_gets_bind {A B} url n k (m : M A) (f : A → M B) :
  at_most_gets url n m → (∀ a, at_most_gets url k (f a)) →
  at_most_gets url (n + k) (m ≫= f).
Proof.
  intros Hm Hf w. unfold mbind, M_bind. specialize (Hm w).
  destruct (m w) as [[a|e] w1]; simpl in *.
  - specialize (Hf a w1). lia.
  - lia.
Qed.

Lemma at_most_gets_unchanged {A} url (m : M A) :
  (∀ w, trace (m w).2 = trace w) → at_most_gets url 0 m.
Proof. intros Hm w. rewrite Hm. lia. Qed.

Lemma at_most_gets_log url l : at_most_gets url 0 (log l).
Proof.
  intros w. cbn [log snd emit trace]. rewrite get_count_app.
  change (get_count url [EvLog l]) with 0. lia.
Qed.

Lemma track_new_trace src idf datef blk lt records :
  ∀ acc w,
    trace (track_new isoformat clock src idf datef blk lt records acc w).2
    = trace w.
Proof.
  induction records as [|r rest IH]; intros acc w; [done|].
  rewrite track_new_cons.
  destruct (r !! idf) as [vid|]; [|apply IH].
  destruct (truthy (Some vid)); [|apply IH].
  pose proof (is_new_violation_pure src vid w) as Hpure.
  destruct (is_new_violation src vid w) as [[[]|e] w1]; simpl in Hpure; subst w1;
    [|apply IH|done].
  destruct (db w) as [t|] eqn:Hdb.
  - rewrite (track_violation_run _ _ _ _ _ _ _ _ t Hdb). by rewrite IH.
  - by rewrite (track_violation_no_table _ _ _ _ _ _ _ _ Hdb).
Qed.

Lemma get_count_get url u p timeout :
  get_count url [EvGet u p timeout] = if String.eqb u url then 1 else 0.
Proof. unfold get_count. simpl. by destruct (String.eqb u url). Qed.

Lemma at_most_gets_make_request net url token ep p :
  at_most_gets url
    (if String.eqb (base_url +:+ "/" +:+ ep +:+ ".json") url then 1 else 0)
    (_make_request net token ep p).
Proof.
  intros w. rewrite _make_request_run. cbn zeta.
  destruct (net _ _) as [json|e]; [|destruct (isinstance_RequestException e)];
    cbn [snd emit trace]; rewrite !get_count_app, get_count_get;
    change (get_count url [EvLog _]) with 0; lia.
Qed.

Lemma at_most_gets_stage net s s' self yesterday :
  at_most_gets (url_of s) (if bool_decide (s' = s) then 1 else 0)
    (stage isoformat clock net s' self yesterday).
Proof.
  unfold stage, engine.
  replace (if bool_decide (s' = s) then 1 else 0)
    with ((if String.eqb (url_of s') (url_of s) then 1 else 0) + 0).
  - apply at_most_gets_bind.
    + rewrite adapter_request. apply at_most_gets_make_request.
    + intros records. apply at_most_gets_unchanged. intros w.
      apply track_new_trace.
  - by destruct s, s'.
Qed.

Lemma at_most_gets_collect net s self :
  at_most_gets (url_of s) 1
    (collect_by_stages isoformat strftime_Ymd minus_one_day clock net self).
Proof.
  unfold collect_by_stages.
  replace 1 with (0 + (0 + ((if bool_decide (Src311 = s) then 1 else 0)
                 + ((if bool_decide (SrcHPD = s) then 1 else 0)
                 + ((if bool_decide (SrcOATH = s) then 1 else 0)
                 + ((if bool_decide (SrcDOB = s) then 1 else 0) + 0)))))).
  - apply at_most_gets_bind; [apply at_most_gets_log | intros _].
    apply at_most_gets_bind; [by apply at_most_gets_unchanged | intros now].
    cbn zeta.
    do 4 (apply at_most_gets_bind; [apply at_most_gets_stage | intros ?]).
    by apply at_most_gets_unchanged.
  - by destruct s.
Qed.

(** C7: when the API fails with a [RequestException] on every request to
    the endpoint of one source, that source's adapter returns the empty
    list and raises nothing; the cycle gives the same result (the same
    four novel-record lists) and leaves the same store and the same calls
    to the outside as it would if the API had answered that source with
    the empty list, only the log differs; and the cycle sends at most one
    request to the failed endpoint: there is no retry. *)
Theorem C7_failed_source_isolated
    (net : string → params → http_outcome) s self w :
  (∀ q, ∃ e, net (url_of s) q = Failure e
             ∧ isinstance_RequestException e = true) →
  (∀ token blk lt since_date w0,
     (adapter net s token blk lt since_date w0).1 = Ok [])
  ∧ (collect_new_violations isoformat strftime_Ymd minus_one_day clock
       net self w).1
    = (collect_new_violations isoformat strftime_Ymd minus_one_day clock
         (answering_empty net s) self w).1
  ∧ same_but_log
      (collect_new_violations isoformat strftime_Ymd minus_one_day clock
         net self w).2
      (collect_new_violations isoformat strftime_Ymd minus_one_day clock
         (answering_empty net s) self w).2
  ∧ get_count (url_of s)
      (trace (collect_new_violations isoformat strftime_Ymd minus_one_day
                clock net self w).2)
    ≤ get_count (url_of s) (trace w) + 1.
Proof.
  intros Hfail. split; [|split; [|split]].
  - intros token blk lt since_date w0.
    rewrite adapter_request, _make_request_run. cbn zeta. fold (url_of s).
    by destruct (Hfail (with_token token (request_params s blk lt since_date)))
      as (e & -> & ->).
  - rewrite !collect_by_stages_eq.
    by apply (sim_collect net s self Hfail w w).
  - rewrite !collect_by_stages_eq.
    by apply (sim_collect net s self Hfail w w).
  - rewrite collect_by_stages_eq. apply at_most_gets_collect.
Qed.

End Isolation.

(** ** The properties at work on the scenario *)

Lemma C1_novelty_first_unseen_witness :
  db fresh_world = Some empty_table
  ∧ Forall (dated Src311) [complaint_A1; complaint_no_key; complaint_A1_again]
  ∧ ∃ w1,
      engine demo_isoformat demo_clock Src311 "1234" "56"
        [complaint_A1; complaint_no_key; complaint_A1_again] fresh_world
      = (Ok (first_by_id (id_field Src311) []
               (unseen_records Src311 empty_table
                  [complaint_A1; complaint_no_key; complaint_A1_again])), w1)
      ∧ engine demo_isoformat demo_clock Src311 "1234" "56"
          [complaint_A1; complaint_no_key; complaint_A1_again] w1
        = (Ok [], w1).
Proof.
  assert (Hdated : Forall (dated Src311)
                     [complaint_A1; complaint_no_key; complaint_A1_again]).
  { repeat constructor; intros H; vm_compute in H |- *;
      first [discriminate | by eexists]. }
  split; [reflexivity|]. split; [exact Hdated|].
  apply (C1_novelty_first_unseen demo_isoformat demo_clock Src311 "1234" "56"
           [complaint_A1; complaint_no_key; complaint_A1_again]
           fresh_world empty_table); [reflexivity | exact Hdated].
Defined.

(** C1 as stated fails twice.  With two records of one identifier the
    engine reports the first only, while both are unseen in the store it
    started from; with a record that has an identifier and no date, the
    second run on the same input reports the record again. *)
Lemma C1_counterexample :
  (engine demo_isoformat demo_clock Src311 "1234" "56"
     [complaint_A1; complaint_A1_again] fresh_world).1
  ≠ Ok (unseen_records Src311 empty_table [complaint_A1; complaint_A1_again])
  ∧ (let w1 := (engine demo_isoformat demo_clock Src311 "1234" "56"
                  [complaint_no_date] fresh_world).2 in
     (engine demo_isoformat demo_clock Src311 "1234" "56"
        [complaint_no_date] w1).1 ≠ Ok []).
Proof. split; vm_compute; discriminate. Qed.

Lemma C2_idempotent_insert_witness :
  db fresh_world = Some empty_table
  ∧ unique_keys empty_table
  ∧ ∃ w1 w2 t1 t2,
      track_violation demo_isoformat demo_clock "311_complaints" "A1"
        "1234" "56" (Some "2024-05-01") fresh_world = (Ok tt, w1)
      ∧ track_violation demo_isoformat demo_clock "311_complaints" "A1"
          "9999" "1" (Some "2024-05-03") w1 = (Ok tt, w2)
      ∧ db w1 = Some t1 ∧ db w2 = Some t2
      ∧ count_key t1 "311_complaints" "A1" = 1
      ∧ rows t2 = rows t1
      ∧ (tracked empty_table "311_complaints" "A1" = false →
         ∃ rid,
           List.filter (key_matches "311_complaints" "A1") (rows t2)
           = [ {| row_id := rid; row_source := "311_complaints";
                  row_violation_id := "A1"; row_block := "1234";
                  row_lot := "56"; row_violation_date := "2024-05-01";
                  row_created_date :=
                    demo_isoformat (demo_clock (ticks fresh_world)) |} ]).
Proof.
  assert (Huniq : unique_keys empty_table) by apply NoDup_nil_2.
  split; [reflexivity|]. split; [exact Huniq|].
  apply (C2_idempotent_insert demo_isoformat demo_clock "311_complaints" "A1"
           "1234" "56" "2024-05-01" "9999" "1" "2024-05-03"
           fresh_world empty_table); [reflexivity | exact Huniq].
Defined.

Lemma C3_unique_pairs_witness :
  empty_store (db no_database)
  ∧ ∀ t,
      db (run_ops demo_isoformat demo_clock
            [OpInit; OpInsert "311_complaints" "A1" "1234" "56" (Some "d1");
             OpExists "311_complaints" "A1";
             OpInsert "311_complaints" "A1" "1234" "56" (Some "d2");
             OpInsert "hpd_violations" "A1" "1234" "56" None]
            no_database) = Some t →
      NoDup (map row_key (rows t))
      ∧ ∀ src vid blk lt vdate,
          tracked t src vid = true →
          ∃ w' t',
            track_violation demo_isoformat demo_clock src vid blk lt vdate
              (run_ops demo_isoformat demo_clock
                 [OpInit; OpInsert "311_complaints" "A1" "1234" "56" (Some "d1");
                  OpExists "311_complaints" "A1";
                  OpInsert "311_complaints" "A1" "1234" "56" (Some "d2");
                  OpInsert "hpd_violations" "A1" "1234" "56" None]
                 no_database) = (Ok tt, w')
            ∧ db w' = Some t' ∧ rows t' = rows t.
Proof.
  split; [exact I|].
  apply (C3_unique_pairs demo_isoformat demo_clock
           [OpInit; OpInsert "311_complaints" "A1" "1234" "56" (Some "d1");
            OpExists "311_complaints" "A1";
            OpInsert "311_complaints" "A1" "1234" "56" (Some "d2");
            OpInsert "hpd_violations" "A1" "1234" "56" None]
           no_database). exact I.
Defined.

Lemma C4_missing_identifier_skipped_witness :
  (complaint_empty_key !! id_field Src311 = None
   ∨ complaint_empty_key !! id_field Src311 = Some "")
  ∧ engine demo_isoformat demo_clock Src311 "1234" "56"
      ([complaint_A1] ++ complaint_empty_key :: [complaint_no_key]) fresh_world
    = engine demo_isoformat demo_clock Src311 "1234" "56"
        ([complaint_A1] ++ [complaint_no_key]) fresh_world
  ∧ (∀ novel w',
       engine demo_isoformat demo_clock Src311 "1234" "56"
         ([complaint_A1] ++ complaint_empty_key :: [complaint_no_key])
         fresh_world = (Ok novel, w') →
       complaint_empty_key ∉ novel)
  ∧ engine demo_isoformat demo_clock Src311 "1234" "56"
      [complaint_empty_key] fresh_world = (Ok [], fresh_world).
Proof.
  assert (Hid : complaint_empty_key !! id_field Src311 = None
                ∨ complaint_empty_key !! id_field Src311 = Some "")
    by (right; reflexivity).
  split; [exact Hid|].
  apply (C4_missing_identifier_skipped demo_isoformat demo_clock Src311
           "1234" "56" [complaint_A1] complaint_empty_key [complaint_no_key]
           fresh_world Hid).
Defined.

Lemma C5_native_identifier_fields_witness :
  db fresh_world = Some empty_table
  ∧ (engine demo_isoformat demo_clock SrcHPD "1234" "56" [complaint_A1]
       fresh_world).1 = Ok []
  ∧ (engine demo_isoformat demo_clock SrcHPD "1234" "56" [hpd_B1]
       fresh_world).1 = Ok [hpd_B1].
Proof.
  split; [reflexivity|].
  pose proof (C5_native_identifier_fields demo_isoformat demo_strftime_Ymd
                demo_minus_one_day demo_clock api_quiet)
    as (_ & Hone & _).
  split.
  - by rewrite (Hone SrcHPD "1234" "56" complaint_A1 fresh_world empty_table
                  eq_refl).
  - by rewrite (Hone SrcHPD "1234" "56" hpd_B1 fresh_world empty_table eq_refl).
Defined.

Lemma C7_failed_source_isolated_witness :
  (∀ q, ∃ e, api_311_down (url_of Src311) q = Failure e
             ∧ isinstance_RequestException e = true)
  ∧ (collect_new_violations demo_isoformat demo_strftime_Ymd
       demo_minus_one_day demo_clock api_311_down demo_monitor fresh_world).1
    = (collect_new_violations demo_isoformat demo_strftime_Ymd
         demo_minus_one_day demo_clock (answering_empty api_311_down Src311)
         demo_monitor fresh_world).1
  ∧ (collect_new_violations demo_isoformat demo_strftime_Ymd
       demo_minus_one_day demo_clock api_311_down demo_monitor fresh_world).1
    = Ok [ ("311_complaints", []); ("hpd_violations", [hpd_B1]);
           ("oath_violations", []); ("dob_violations", []) ].
Proof.
  assert (Hdown : ∀ q, ∃ e, api_311_down (url_of Src311) q = Failure e
                            ∧ isinstance_RequestException e = true)
    by (intros q; exists RequestException; split; reflexivity).
  split; [exact Hdown|]. split.
  - apply (C7_failed_source_isolated demo_isoformat demo_strftime_Ymd
             demo_minus_one_day demo_clock api_311_down Src311 demo_monitor
             fresh_world Hdown).
  - vm_compute. reflexivity.
Defined.

Lemma C8_delivery_failure_keeps_store_witness :
  (∀ c e, smtp_refusing c = Some e → isinstance_Exception e = true)
  ∧ smtp_refusing (SMTP_connect "smtp.example.org" 587) = Some SMTPException
  ∧ ∃ w2,
      check_violations demo_isoformat demo_strftime_Ymd demo_minus_one_day
        demo_clock api_311_down smtp_refusing demo_monitor fresh_world
      = (Ok tt, w2)
      ∧ db w2
        = db (collect_new_violations demo_isoformat demo_strftime_Ymd
                demo_minus_one_day demo_clock api_311_down demo_monitor
                fresh_world).2.
Proof.
  assert (Hexn : ∀ c e, smtp_refusing c = Some e →
                        isinstance_Exception e = true).
  { intros c e. destruct c; simpl; intros [= <-]; reflexivity. }
  split; [exact Hexn|]. split; [reflexivity|].
  apply (C8_delivery_failure_keeps_store demo_isoformat demo_strftime_Ymd
           demo_minus_one_day demo_clock api_311_down smtp_refusing
           demo_monitor fresh_world
           [ ("311_complaints", []); ("hpd_violations", [hpd_B1]);
             ("oath_violations", []); ("dob_violations", []) ]
           _ Hexn).
  vm_compute. reflexivity.
Defined.

Lemma C9_no_report_when_nothing_new_witness :
  Forall (λ kv : string * list raw_record, kv.2 = [])
    [ ("311_complaints", []); ("hpd_violations", []);
      ("oath_violations", []); ("dob_violations", []) ]
  ∧ send_violation_report demo_strftime_Ymd demo_clock smtp_refusing
      demo_notifier
      [ ("311_complaints", []); ("hpd_violations", []);
        ("oath_violations", []); ("dob_violations", []) ]
      "1234" "56" fresh_world
    = (Ok tt, emit (EvLog Info_no_new_violations) fresh_world).
Proof.
  assert (Hempty : Forall (λ kv : string * list raw_record, kv.2 = [])
                     [ ("311_complaints", []); ("hpd_violations", []);
                       ("oath_violations", []); ("dob_violations", []) ])
    by (repeat constructor).
  split; [exact Hempty|].
  apply (proj1 (C9_no_report_when_nothing_new demo_isoformat demo_strftime_Ymd
                  demo_minus_one_day demo_clock api_quiet smtp_refusing
                  demo_monitor) _ "1234" "56" fresh_world Hempty).
Defined.

(** C10 (the code departs from it): two records with the identifier
    [A1] and no [created_date], on a store that has the table and no row.
    Each is found new, appended to the novel-record list and handed to
    [track_violation] with a [None] date; the insert is ignored for the
    NOT NULL constraint on [violation_date], so the pair is still new for
    the next record: both are reported and no row is stored.  The
    existence check itself leaves the world as it found it. *)
Theorem C10_duplicate_reported_when_date_missing :
  engine demo_isoformat demo_clock Src311 "1234" "56"
    [complaint_no_date; complaint_no_date] fresh_world
  = (Ok [complaint_no_date; complaint_no_date],
     {| db := Some {| rows := []; seq := 2 |}; ticks := 2; trace := [] |})
  ∧ ∀ src vid w, (is_new_violation src vid w).2 = w.
Proof. split; [vm_compute; reflexivity | exact is_new_violation_pure]. Qed.

(** ** The further properties at work on the scenario *)

Lemma X2_insert_then_exists_witness :
  db fresh_world = Some empty_table
  ∧ ∃ w',
      track_violation demo_isoformat demo_clock "hpd_violations" "B1"
        "1234" "56" (Some "2024-05-01") fresh_world = (Ok tt, w')
      ∧ is_new_violation "hpd_violations" "B1" w' = (Ok false, w')
      ∧ ∀ src' vid', (src', vid') ≠ ("hpd_violations", "B1") →
          (is_new_violation src' vid' w').1
          = (is_new_violation src' vid' fresh_world).1.
Proof.
  split; [reflexivity|].
  apply (X2_insert_then_exists demo_isoformat demo_clock "hpd_violations" "B1"
           "1234" "56" "2024-05-01" fresh_world empty_table).
  reflexivity.
Defined.

Lemma X3_no_table_raises_witness :
  db no_database = None
  ∧ is_new_violation "311_complaints" "A1" no_database
    = (Raise OperationalError, no_database)
  ∧ (track_violation demo_isoformat demo_clock "311_complaints" "A1"
       "1234" "56" (Some "2024-05-01") no_database).1
    = Raise OperationalError
  ∧ db (track_violation demo_isoformat demo_clock "311_complaints" "A1"
          "1234" "56" (Some "2024-05-01") no_database).2 = None
  ∧ engine demo_isoformat demo_clock Src311 "1234" "56"
      [complaint_no_key; complaint_A1] no_database
    = (if existsb (λ r : raw_record, truthy (r !! id_field Src311))
            [complaint_no_key; complaint_A1]
       then Raise OperationalError else Ok [], no_database).
Proof.
  split; [reflexivity|].
  apply (X3_no_table_raises demo_isoformat demo_clock Src311 "1234" "56"
           [complaint_no_key; complaint_A1] "311_complaints" "A1"
           (Some "2024-05-01") no_database).
  reflexivity.
Defined.

Lemma X4_insert_without_date_ignored_witness :
  db fresh_world = Some empty_table
  ∧ ∃ w' t',
      track_violation demo_isoformat demo_clock "311_complaints" "A1"
        "1234" "56" None fresh_world = (Ok tt, w')
      ∧ db w' = Some t' ∧ rows t' = rows empty_table
      ∧ ∀ src' vid',
          (is_new_violation src' vid' w').1
          = (is_new_violation src' vid' fresh_world).1.
Proof.
  split; [reflexivity|].
  apply (X4_insert_without_date_ignored demo_isoformat demo_clock
           "311_complaints" "A1" "1234" "56" fresh_world empty_table).
  reflexivity.
Defined.

Lemma X5_engine_reports_unseen_subsequence_witness :
  db fresh_world = Some empty_table
  ∧ ∃ novel w',
      engine demo_isoformat demo_clock Src311 "1234" "56"
        [complaint_no_date; complaint_empty_key; complaint_A1] fresh_world
      = (Ok novel, w')
      ∧ novel `sublist_of` [complaint_no_date; complaint_empty_key; complaint_A1]
      ∧ Forall (λ r, unseen Src311 empty_table r = true) novel.
Proof.
  split; [reflexivity|].
  apply (X5_engine_reports_unseen_subsequence demo_isoformat demo_clock Src311
           "1234" "56" [complaint_no_date; complaint_empty_key; complaint_A1]
           fresh_world empty_table).
  reflexivity.
Defined.

Lemma X6_engine_effects_witness :
  db fresh_world = Some empty_table
  ∧ ∃ novel t',
      engine demo_isoformat demo_clock Src311 "1234" "56"
        [complaint_no_date; complaint_A1] fresh_world
      = (Ok novel,
         {| db := Some t'; ticks := ticks fresh_world + length novel;
            trace := trace fresh_world |})
      ∧ rows empty_table `prefix_of` rows t'
      ∧ length (rows t') ≤ length (rows empty_table) + length novel.
Proof.
  split; [reflexivity|].
  apply (X6_engine_effects demo_isoformat demo_clock Src311 "1234" "56"
           [complaint_no_date; complaint_A1] fresh_world empty_table).
  reflexivity.
Defined.

Lemma X7_engine_rows_describe_reported_witness :
  db fresh_world = Some empty_table
  ∧ ∃ novel w' t' added,
      engine demo_isoformat demo_clock SrcHPD "1234" "56" [hpd_B1] fresh_world
      = (Ok novel, w')
      ∧ db w' = Some t'
      ∧ rows t' = rows empty_table ++ added
      ∧ Forall (λ x, ∃ r, r ∈ novel ∧ row_describes SrcHPD "1234" "56" r x)
          added.
Proof.
  split; [reflexivity|].
  apply (X7_engine_rows_describe_reported demo_isoformat demo_clock SrcHPD
           "1234" "56" [hpd_B1] fresh_world empty_table).
  reflexivity.
Defined.

Lemma X8_engine_other_sources_untouched_witness :
  db fresh_world = Some empty_table
  ∧ SrcHPD ≠ Src311
  ∧ ∃ t',
      db (engine demo_isoformat demo_clock Src311 "1234" "56" [complaint_A1]
            fresh_world).2 = Some t'
      ∧ ∀ vid, tracked t' (tag SrcHPD) vid = tracked empty_table (tag SrcHPD) vid.
Proof.
  split; [reflexivity|]. split; [discriminate|].
  apply (X8_engine_other_sources_untouched demo_isoformat demo_clock Src311
           SrcHPD "1234" "56" [complaint_A1] fresh_world empty_table);
    [reflexivity | discriminate].
Defined.

Lemma steady_answer_dated : ∀ s, Forall (dated s) (steady_answer s).
Proof.
  intros []; repeat constructor; intros H; vm_compute in H |- *;
    first [discriminate | by eexists].
Qed.

Lemma X9_engine_distinct_identifiers_witness :
  db fresh_world = Some empty_table
  ∧ Forall (dated Src311) (steady_answer Src311)
  ∧ ∃ novel w',
      engine demo_isoformat demo_clock Src311 "1234" "56"
        (steady_answer Src311) fresh_world = (Ok novel, w')
      ∧ NoDup (ids_of Src311 novel).
Proof.
  split; [reflexivity|]. split; [apply steady_answer_dated|].
  apply (X9_engine_distinct_identifiers demo_isoformat demo_clock Src311
           "1234" "56" (steady_answer Src311) fresh_world empty_table);
    [reflexivity | apply steady_answer_dated].
Defined.

Lemma X10_engine_tracks_every_identified_record_witness :
  db fresh_world = Some empty_table
  ∧ Forall (dated Src311) (steady_answer Src311)
  ∧ ∃ t',
      db (engine demo_isoformat demo_clock Src311 "1234" "56"
            (steady_answer Src311) fresh_world).2 = Some t'
      ∧ (∀ vid, tracked empty_table (tag Src311) vid = true →
                tracked t' (tag Src311) vid = true)
      ∧ Forall (λ r, truthy (r !! id_field Src311) = true →
                     tracked t' (tag Src311) (default "" (r !! id_field Src311))
                     = true)
          (steady_answer Src311).
Proof.
  split; [reflexivity|]. split; [apply steady_answer_dated|].
  apply (X10_engine_tracks_every_identified_record demo_isoformat demo_clock
           Src311 "1234" "56" (steady_answer Src311) fresh_world empty_table);
    [reflexivity | apply steady_answer_dated].
Defined.

Lemma X12_cycle_append_only_witness :
  db fresh_world = Some empty_table
  ∧ ∃ t',
      db (check_violations demo_isoformat demo_strftime_Ymd demo_minus_one_day
            demo_clock api_hpd_garbled smtp_refusing demo_monitor
            fresh_world).2 = Some t'
      ∧ rows empty_table `prefix_of` rows t'
      ∧ (unique_keys empty_table → unique_keys t').
Proof.
  split; [reflexivity|].
  apply (X12_cycle_append_only demo_isoformat demo_strftime_Ymd
           demo_minus_one_day demo_clock api_hpd_garbled smtp_refusing
           demo_monitor fresh_world empty_table).
  reflexivity.
Defined.

Lemma X14_app_token_witness :
  truthy (Some "") = false
  ∧ ∃ p tail,
      trace (adapter api_quiet SrcDOB (Some "") "1234" "56" "2024-05-01"
               fresh_world).2
      = trace fresh_world ++ EvGet (url_of SrcDOB) p 30 :: tail
      ∧ p !! "$$app_token" = None
      ∧ (truthy (Some "") = false →
         p = request_params SrcDOB "1234" "56" "2024-05-01").
Proof.
  split; [reflexivity|].
  apply (X14_app_token api_quiet SrcDOB (Some "") "1234" "56" "2024-05-01"
           fresh_world).
Defined.

Lemma api_311_down_tame :
  ∀ url q e, api_311_down url q = Failure e →
             isinstance_RequestException e = true.
Proof.
  intros url q e. unfold api_311_down.
  destruct (String.eqb url (url_of Src311)); [by intros [= <-]|].
  by destruct (String.eqb url (url_of SrcHPD)).
Qed.

Lemma smtp_refusing_exceptions :
  ∀ c e, smtp_refusing c = Some e → isinstance_Exception e = true.
Proof. intros c e. destruct c; simpl; intros [= <-]; reflexivity. Qed.

Lemma X15_cycle_returns_witness :
  (∀ url q e, api_311_down url q = Failure e →
              isinstance_RequestException e = true)
  ∧ (∀ c e, smtp_refusing c = Some e → isinstance_Exception e = true)
  ∧ db fresh_world = Some empty_table
  ∧ ∃ w',
      check_violations demo_isoformat demo_strftime_Ymd demo_minus_one_day
        demo_clock api_311_down smtp_refusing demo_monitor fresh_world
      = (Ok tt, w').
Proof.
  split; [exact api_311_down_tame|].
  split; [exact smtp_refusing_exceptions|]. split; [reflexivity|].
  apply (X15_cycle_returns demo_isoformat demo_strftime_Ymd demo_minus_one_day
           demo_clock api_311_down smtp_refusing demo_monitor fresh_world
           empty_table api_311_down_tame smtp_refusing_exceptions).
  reflexivity.
Defined.

Lemma X16_cycle_aborts_on_other_failure_witness :
  (∀ q, api_hpd_garbled (url_of SrcHPD) q = Failure ValueError)
  ∧ isinstance_RequestException ValueError = false
  ∧ ∃ e',
      (check_violations demo_isoformat demo_strftime_Ymd demo_minus_one_day
         demo_clock api_hpd_garbled smtp_accepting demo_monitor
         fresh_world).1 = Raise e'
      ∧ smtp_calls
          (trace (check_violations demo_isoformat demo_strftime_Ymd
                    demo_minus_one_day demo_clock api_hpd_garbled
                    smtp_accepting demo_monitor fresh_world).2)
        = smtp_calls (trace fresh_world).
Proof.
  assert (Hfail : ∀ q, api_hpd_garbled (url_of SrcHPD) q = Failure ValueError)
    by (intros q; reflexivity).
  split; [exact Hfail|]. split; [reflexivity|].
  apply (X16_cycle_aborts_on_other_failure demo_isoformat demo_strftime_Ymd
           demo_minus_one_day demo_clock api_hpd_garbled smtp_accepting
           SrcHPD ValueError demo_monitor fresh_world Hfail).
  reflexivity.
Defined.

Lemma X17_cycle_requests_witness :
  collect_new_violations demo_isoformat demo_strftime_Ymd demo_minus_one_day
    demo_clock api_311_down demo_monitor fresh_world
  = (Ok [ ("311_complaints", []); ("hpd_violations", [hpd_B1]);
          ("oath_violations", []); ("dob_violations", []) ],
     (collect_new_violations demo_isoformat demo_strftime_Ymd
        demo_minus_one_day demo_clock api_311_down demo_monitor
        fresh_world).2)
  ∧ calls (trace (collect_new_violations demo_isoformat demo_strftime_Ymd
                    demo_minus_one_day demo_clock api_311_down demo_monitor
                    fresh_world).2)
    = calls (trace fresh_world)
      ++ map (λ s, EvGet (url_of s)
                     (with_token (api_token demo_monitor)
                        (request_params s (block demo_monitor)
                           (lot demo_monitor)
                           (demo_strftime_Ymd
                              (demo_minus_one_day
                                 (demo_clock (ticks fresh_world))))))
                     30)
          all_sources.
Proof.
  assert (Hrun :
    collect_new_violations demo_isoformat demo_strftime_Ymd demo_minus_one_day
      demo_clock api_311_down demo_monitor fresh_world
    = (Ok [ ("311_complaints", []); ("hpd_violations", [hpd_B1]);
            ("oath_violations", []); ("dob_violations", []) ],
       (collect_new_violations demo_isoformat demo_strftime_Ymd
          demo_minus_one_day demo_clock api_311_down demo_monitor
          fresh_world).2))
    by (vm_compute; reflexivity).
  split; [exact Hrun|].
  apply (X17_cycle_requests demo_isoformat demo_strftime_Ymd demo_minus_one_day
           demo_clock api_311_down demo_monitor fresh_world _ _ Hrun).
Defined.

Lemma api_steady_answers :
  ∀ s q, api_steady (url_of s) q = Response (steady_answer s).
Proof. by intros [] q. Qed.

Lemma X18_second_cycle_reports_nothing_witness :
  (∀ s q, api_steady (url_of s) q = Response (steady_answer s))
  ∧ (∀ s, Forall (dated s) (steady_answer s))
  ∧ db fresh_world = Some empty_table
  ∧ ∃ wc w2,
      collect_new_violations demo_isoformat demo_strftime_Ymd
        demo_minus_one_day demo_clock api_steady demo_monitor
        (check_violations demo_isoformat demo_strftime_Ymd demo_minus_one_day
           demo_clock api_steady smtp_refusing demo_monitor fresh_world).2
      = (Ok nothing_new, wc)
      ∧ check_violations demo_isoformat demo_strftime_Ymd demo_minus_one_day
          demo_clock api_steady smtp_refusing demo_monitor
          (check_violations demo_isoformat demo_strftime_Ymd
             demo_minus_one_day demo_clock api_steady smtp_refusing
             demo_monitor fresh_world).2
        = (Ok tt, w2)
      ∧ db w2
        = db (check_violations demo_isoformat demo_strftime_Ymd
                demo_minus_one_day demo_clock api_steady smtp_refusing
                demo_monitor fresh_world).2
      ∧ smtp_calls (trace w2)
        = smtp_calls
            (trace (check_violations demo_isoformat demo_strftime_Ymd
                      demo_minus_one_day demo_clock api_steady smtp_refusing
                      demo_monitor fresh_world).2).
Proof.
  split; [exact api_steady_answers|]. split; [exact steady_answer_dated|].
  split; [reflexivity|].
  apply (X18_second_cycle_reports_nothing demo_isoformat demo_strftime_Ymd
           demo_minus_one_day demo_clock api_steady smtp_refusing demo_monitor
           steady_answer fresh_world empty_table _ api_steady_answers
           steady_answer_dated eq_refl).
  vm_compute. reflexivity.
Defined.


Lemma X21_no_recipients_still_logs_in_witness :
  to_emails silent_notifier = []
  ∧ any_values one_new = true
  ∧ (∀ c, smtp_accepting c = None)
  ∧ smtp_calls
      (trace (send_violation_report demo_strftime_Ymd demo_clock
                smtp_accepting silent_notifier one_new "1234" "56"
                fresh_world).2)
    = [ SMTP_connect "smtp.example.org" 587; SMTP_starttls;
        SMTP_login "monitor@example.org" "secret"; SMTP_quit ].
Proof.
  split; [reflexivity|]. split; [reflexivity|]. split; [reflexivity|].
  rewrite (X21_no_recipients_still_logs_in demo_strftime_Ymd demo_clock
             smtp_accepting silent_notifier one_new "1234" "56" fresh_world
             eq_refl eq_refl (λ c, eq_refl)).
  reflexivity.
Defined.
